(** * OpalForge model locator and loader

    A shallow embedding of the multi-path model loader of the OpalForge
    front-end script ([tryFetchInfo], [MODEL_CANDIDATES], [loadModel]) and the
    properties of its probing and load sequence.

    The script is sequential asynchronous JavaScript.  Every [await] is a
    sequencing point, so the embedding is a state-and-exception monad over the
    script's mutable state: the [model] slot, the two DOM properties it writes,
    and the console.  Two pieces of instrumentation are added to that state: a
    trace of the external operations issued ([fetch] requests, calls of
    [tf.loadLayersModel]) and of the writes to the [model] slot, and the queue
    of promises that were started without being awaited.

    The browser and the inference runtime are external; they are an [Env]
    giving, for every location, the answer of [fetch] and of
    [tf.loadLayersModel].  Within one run an answer depends on the location
    only. *)

From Stdlib Require Import PrimFloat.
From Stdlib Require Import String List ZArith Lia Bool.
Import ListNotations.
Open Scope string_scope.

(** ** JavaScript values the script handles *)

(** A thrown value: an [Error] object with its [name] and [message]. *)
Record Thrown := mkThrown { thrown_name : string; thrown_message : string }.

(** [String(e)] on an [Error] object ([Error.prototype.toString]). *)
Definition toString (e : Thrown) : string :=
  if String.eqb (thrown_name e) "" then thrown_message e
  else if String.eqb (thrown_message e) "" then thrown_name e
  else thrown_name e ++ ": " ++ thrown_message e.

(** [s.slice(beginSlice, endSlice)], characters standing for code units. *)
Definition slice (s : string) (beginSlice endSlice : Z) : string :=
  let len := Z.of_nat (String.length s) in
  let from := if (beginSlice <? 0)%Z then Z.max (len + beginSlice) 0
              else Z.min beginSlice len in
  let to := if (endSlice <? 0)%Z then Z.max (len + endSlice) 0
            else Z.min endSlice len in
  substring (Z.to_nat from) (Z.to_nat (Z.max (to - from) 0)) s.

(** The result of a computation: a value, or a thrown exception. *)
Inductive Result (A : Type) : Type :=
| Ok (a : A)
| Throw (e : Thrown).
Arguments Ok {A} a.
Arguments Throw {A} e.

(** The [Response] a fulfilled [fetch] yields, reduced to what the script
    reads: [ok], [status], [url], [headers.get(name)] and the outcome of
    [clone().text()]. *)
Record Response := mkResponse {
  res_ok : bool;
  res_status : Z;
  res_url : string;
  res_headers_get : string -> option string;
  res_clone_text : Result string
}.

(** The object [tryFetchInfo] returns: [{ ok, status, url, acao, preview }]
    when the fetch was fulfilled, [{ ok: false, error }] when it threw. *)
Inductive ProbeResult :=
| ProbeInfo (ok : bool) (status : Z) (url : string) (acao : option string)
            (preview : string)
| ProbeError (error : string).

(** The [ok] property, as [loadModel] reads it. *)
Definition ok (info : ProbeResult) : bool :=
  match info with
  | ProbeInfo b _ _ _ _ => b
  | ProbeError _ => false
  end.

Definition error_of (info : ProbeResult) : option string :=
  match info with
  | ProbeInfo _ _ _ _ _ => None
  | ProbeError s => Some s
  end.

Definition preview_of (info : ProbeResult) : option string :=
  match info with
  | ProbeInfo _ _ _ _ p => Some p
  | ProbeError _ => None
  end.

(** The opaque model object of the inference runtime. *)
Inductive ModelHandle := LayersModel (id : string).

(** ** The external collaborators *)

(** The inference runtime: [tf.loadLayersModel] is [None] when the property
    is not a function. *)
Record Tf := mkTf {
  loadLayersModel : option (string -> Result ModelHandle)
}.

(** The environment of a run: the global [tf] ([None] when [typeof tf] is
    ['undefined']) and the network as [fetch] sees it. *)
Record Env := mkEnv {
  tf : option Tf;
  fetch_answer : string -> Result Response
}.

(** ** The script's state *)

Inductive Level := LevelLog | LevelWarn | LevelError.

(** An argument passed to a console method. *)
Inductive Arg :=
| AStr (s : string)
| AInfo (info : ProbeResult)
| AThrown (e : Thrown)
| ANull
| AModel (m : ModelHandle)
| ATf.

Definition LogEntry : Type := Level * list Arg.

(** External operations issued and writes to the [model] slot, in order. *)
Inductive Event :=
| EFetch (url : string)
| ELoad (url : string)
| EModelWrite (m : ModelHandle).

Record State := mkState {
  model : option ModelHandle;
  loader_style_display : string;
  output_textContent : string;
  console : list LogEntry;
  trace : list Event;
  detached : list string
}.

(** The state when the script has been evaluated and [loadModel] has not run:
    [let model = null] and [loader.style.display = 'none']. *)
Definition initial_state : State := mkState None "none" "" [] [] [].

(** ** The monad of the script's computations *)

Definition M (A : Type) : Type := State -> Result A * State.

Definition ret {A} (a : A) : M A := fun st => (Ok a, st).

Definition bind {A B} (m : M A) (k : A -> M B) : M B :=
  fun st =>
    match m st with
    | (Ok a, st') => k a st'
    | (Throw e, st') => (Throw e, st')
    end.

(** [try { body } catch (e) { handler e }] *)
Definition try_catch {A} (body : M A) (handler : Thrown -> M A) : M A :=
  fun st =>
    match body st with
    | (Ok a, st') => (Ok a, st')
    | (Throw e, st') => handler e st'
    end.

(** The settled value of an awaited promise. *)
Definition settle {A} (r : Result A) : M A := fun st => (r, st).

Declare Scope js_scope.
Delimit Scope js_scope with js.
Notation "x <- m ;; k" := (bind m (fun x => k))
  (at level 61, m at next level, right associativity) : js_scope.
Notation "m ;; k" := (bind m (fun _ => k))
  (at level 61, right associativity) : js_scope.
Open Scope js_scope.

Definition modify (f : State -> State) : M unit := fun st => (Ok tt, f st).

Definition set_model (m : ModelHandle) : M unit :=
  modify (fun st => mkState (Some m) (loader_style_display st)
                      (output_textContent st) (console st)
                      (trace st ++ [EModelWrite m]) (detached st)).

Definition set_loader_style_display (v : string) : M unit :=
  modify (fun st => mkState (model st) v (output_textContent st) (console st)
                      (trace st) (detached st)).

Definition set_output_textContent (v : string) : M unit :=
  modify (fun st => mkState (model st) (loader_style_display st) v (console st)
                      (trace st) (detached st)).

Definition console_write (entry : LogEntry) : M unit :=
  modify (fun st => mkState (model st) (loader_style_display st)
                      (output_textContent st) (console st ++ [entry])
                      (trace st) (detached st)).

Definition emit (ev : Event) : M unit :=
  modify (fun st => mkState (model st) (loader_style_display st)
                      (output_textContent st) (console st)
                      (trace st ++ [ev]) (detached st)).

Definition detach (url : string) : M unit :=
  modify (fun st => mkState (model st) (loader_style_display st)
                      (output_textContent st) (console st)
                      (trace st) (detached st ++ [url])).

(** [log], [warn] and [error]: the console methods behind the ['[app.js]']
    tag. *)
Definition log (args : list Arg) : M unit :=
  console_write (LevelLog, AStr "[app.js]" :: args).
Definition warn (args : list Arg) : M unit :=
  console_write (LevelWarn, AStr "[app.js]" :: args).
Definition error (args : list Arg) : M unit :=
  console_write (LevelError, AStr "[app.js]" :: args).

Section Script.

Variable env : Env.

(** [fetch(url, { method: 'GET' })] is two steps: the call issues the request,
    the [await] yields the response or throws. *)
Definition fetch_call (url : string) : M unit := emit (EFetch url).
Definition fetch_await (url : string) : M Response :=
  settle (fetch_answer env url).
Definition fetch (url : string) : M Response :=
  fetch_call url ;; fetch_await url.

(** The body of [tryFetchInfo], over the computation that yields the
    response.  The object [info] is built and its [preview] property assigned
    before it is returned; it is not visible in between. *)
Definition tryFetchInfo_body (response : M Response) : M ProbeResult :=
  try_catch
    (res <- response ;;
     preview <- try_catch
                  (txt <- settle (res_clone_text res) ;;
                   ret (slice txt 0 1000))
                  (fun _ => ret "(preview not available)") ;;
     ret (ProbeInfo (res_ok res) (res_status res) (res_url res)
                    (res_headers_get res "access-control-allow-origin")
                    preview))
    (fun e => ret (ProbeError (toString e))).

Definition tryFetchInfo (url : string) : M ProbeResult :=
  tryFetchInfo_body (fetch url).

(** What is left of [tryFetchInfo url] once the request has been issued: the
    continuation of a call that was started and not awaited. *)
Definition tryFetchInfo_resume (url : string) : M ProbeResult :=
  tryFetchInfo_body (fetch_await url).

(** How a block of [loadModel] completes: by its [return] statement, or
    normally, with the current value of the local [lastError]. *)
Inductive Completion :=
| Return
| Normal (lastError : option Thrown).

Definition arg_of_lastError (lastError : option Thrown) : Arg :=
  match lastError with
  | Some e => AThrown e
  | None => ANull
  end.

(** [await tf.loadLayersModel(candidate)] *)
Definition tf_loadLayersModel (load : string -> Result ModelHandle)
    (candidate : string) : M ModelHandle :=
  emit (ELoad candidate) ;; settle (load candidate).

(** The [for (const candidate of MODEL_CANDIDATES)] loop of [loadModel]. *)
Fixpoint candidates_loop (load : string -> Result ModelHandle)
    (candidates : list string) (lastError : option Thrown) : M Completion :=
  match candidates with
  | [] => ret (Normal lastError)
  | candidate :: rest =>
    log [AStr "Probing candidate:"; AStr candidate] ;;
    fetchInfo <- tryFetchInfo candidate ;;
    log [AStr "Fetch result for"; AStr candidate; AInfo fetchInfo] ;;
    if negb (ok fetchInfo) then
      warn [AStr "Fetch failed or not OK for"; AStr candidate;
            AInfo fetchInfo] ;;
      candidates_loop load rest lastError
    else
      c <- try_catch
             (log [AStr "Attempting tf.loadLayersModel("; AStr candidate;
                   AStr ")"] ;;
              m <- tf_loadLayersModel load candidate ;;
              set_model m ;;
              set_loader_style_display "none" ;;
              set_output_textContent
                "Model loaded. Upload an image to start." ;;
              log [AStr "Model loaded successfully from"; AStr candidate;
                   AModel m] ;;
              ret Return)
             (fun e =>
                warn [AStr "tf.loadLayersModel failed for"; AStr candidate;
                      AThrown e] ;;
                ret (Normal (Some e))) ;;
      match c with
      | Return => ret Return
      | Normal lastError' => candidates_loop load rest lastError'
      end
  end.

(** The closing loop of [loadModel]: [tryFetchInfo(c)] is called and not
    awaited, so the request is issued and the rest of the call, with its
    [then] and [catch] handlers, is left pending. *)
Fixpoint probes_summary (candidates : list string) : M unit :=
  match candidates with
  | [] => ret tt
  | c :: rest => fetch_call c ;; detach c ;; probes_summary rest
  end.

(** [loadModel], over the list it iterates; [final_pass] is what it does
    with that list after the summary header. *)
Definition loadModel_with (final_pass : list string -> M unit)
    (candidates : list string) : M unit :=
  set_loader_style_display "block" ;;
  set_output_textContent "Loading model..." ;;
  log [AStr "Starting model load sequence..."] ;;
  match tf env with
  | None =>
    set_loader_style_display "none" ;;
    set_output_textContent "TensorFlow.js not loaded. Check network/CSP." ;;
    error [AStr "tf is undefined; TF.js script may be blocked or failed to load."]
  | Some t =>
    match loadLayersModel t with
    | None =>
      set_loader_style_display "none" ;;
      set_output_textContent
        "Incompatible TF.js build: loadLayersModel missing." ;;
      error [AStr "tf.loadLayersModel is not a function. TF.js build missing layers API? tf:";
             ATf]
    | Some load =>
      c <- candidates_loop load candidates None ;;
      match c with
      | Return => ret tt
      | Normal lastError =>
        set_loader_style_display "none" ;;
        set_output_textContent "Model not loaded. See console for details." ;;
        error [AStr "Model load failed for all candidate paths. Last error:";
               arg_of_lastError lastError] ;;
        error [AStr "Network probes summary:"] ;;
        final_pass candidates
      end
    end
  end.

(** [loadModel] over an arbitrary candidate list. *)
Definition loadModelFrom : list string -> M unit :=
  loadModel_with probes_summary.

(** [loadModel] without its closing re-probe loop: the implementation the
    specification allows, to be compared with [loadModelFrom]. *)
Definition loadModel_omitting_reprobe : list string -> M unit :=
  loadModel_with (fun _ => ret tt).

(** The handlers attached to a detached probe:
    [.then(info => log('probe', c, info)).catch(() => {})]. *)
Definition detached_handlers (c : string) : M unit :=
  try_catch
    (info <- tryFetchInfo_resume c ;;
     log [AStr "probe"; AStr c; AInfo info])
    (fun _ => ret tt).

Fixpoint remove_nth {A} (i : nat) (l : list A) : list A :=
  match l, i with
  | [], _ => []
  | _ :: l', O => l'
  | x :: l', S i' => x :: remove_nth i' l'
  end.

(** The event loop settles the [i]-th pending detached probe. *)
Definition complete_detached (i : nat) (st : State) : State :=
  match nth_error (detached st) i with
  | None => st
  | Some c =>
    snd (detached_handlers c
           (mkState (model st) (loader_style_display st)
              (output_textContent st) (console st) (trace st)
              (remove_nth i (detached st))))
  end.

(** Detached probes settle in an order the network decides: a schedule names,
    step by step, which pending probe settles next. *)
Definition run_detached (schedule : list nat) (st : State) : State :=
  fold_left (fun s i => complete_detached i s) schedule st.

End Script.

Definition MODEL_CANDIDATES : list string :=
  [ "./model.json";
    "/model.json";
    "model.json";
    "./static/model/model.json";
    "static/model/model.json";
    "./models/model.json";
    "/static/model/model.json" ].

Definition loadModel (env : Env) : M unit := loadModelFrom env MODEL_CANDIDATES.

(** ** Sample environments *)

Definition model_json : Response :=
  mkResponse true 200 "https://opalforge.example/model.json"
    (fun _ => None) (Ok "{}").

Definition index_html : Response :=
  mkResponse true 200 "https://opalforge.example/index.html"
    (fun name => if String.eqb name "access-control-allow-origin"
                 then Some "*" else None)
    (Ok "<!doctype html>").

Definition not_found : Response :=
  mkResponse false 404 "https://opalforge.example/404"
    (fun _ => None) (Throw (mkThrown "TypeError" "body stream is locked")).

(** A host on which ['./model.json'] cannot be fetched, ['/model.json']
    answers with a page that is not a model manifest, ['model.json'] is the
    manifest, and every other location is missing. *)
Definition sample_fetch (url : string) : Result Response :=
  if String.eqb url "./model.json"
  then Throw (mkThrown "TypeError" "Failed to fetch")
  else if String.eqb url "/model.json" then Ok index_html
  else if String.eqb url "model.json" then Ok model_json
  else Ok not_found.

Definition sample_load (url : string) : Result ModelHandle :=
  if String.eqb url "model.json" then Ok (LayersModel url)
  else Throw (mkThrown "SyntaxError" "Unexpected token < in JSON").

Definition sample_tf : Tf := mkTf (Some sample_load).

Definition sample_env : Env := mkEnv (Some sample_tf) sample_fetch.

(** The same host when the runtime script was blocked, and when it is a
    build without the layers API. *)
Definition sample_env_no_tf : Env := mkEnv None sample_fetch.
Definition sample_env_no_layers : Env := mkEnv (Some (mkTf None)) sample_fetch.

(** The same host a moment later: the listed locations answer as before,
    another one has appeared. *)
Definition sample_env_later : Env :=
  mkEnv (Some sample_tf)
        (fun url => if String.eqb url "extra/model.json" then Ok model_json
                    else sample_fetch url).

(** ** Reading a state *)

(** The state [st] after [logs] were written to the console and [events]
    took place. *)
Definition extend (st : State) (logs : list LogEntry) (events : list Event)
    : State :=
  mkState (model st) (loader_style_display st) (output_textContent st)
          (console st ++ logs) (trace st ++ events) (detached st).

(** The object [tryFetchInfo] builds from the answer of the network. *)
Definition probe_info_of (answer : Result Response) : ProbeResult :=
  match answer with
  | Ok res =>
    ProbeInfo (res_ok res) (res_status res) (res_url res)
      (res_headers_get res "access-control-allow-origin")
      match res_clone_text res with
      | Ok txt => slice txt 0 1000
      | Throw _ => "(preview not available)"
      end
  | Throw e => ProbeError (toString e)
  end.

(** The probe of location [c] reports success: [tryFetchInfo] returns an
    object whose [ok] is true, which is when the fetch is fulfilled with a
    response whose [ok] is true (lemmas [tryFetchInfo_probe_ok] and
    [probe_ok_true]). *)
Definition probe_ok (env : Env) (c : string) : bool :=
  ok (probe_info_of (fetch_answer env c)).

(** The model a candidate yields: it must probe successfully and then load. *)
Definition usable (env : Env) (load : string -> Result ModelHandle)
    (c : string) : option ModelHandle :=
  if probe_ok env c then
    match load c with
    | Ok m => Some m
    | Throw _ => None
    end
  else None.

(** What one iteration of the candidate loop writes to the console. *)
Definition candidate_logs (env : Env) (load : string -> Result ModelHandle)
    (c : string) : list LogEntry :=
  let info := probe_info_of (fetch_answer env c) in
  [ (LevelLog, [AStr "[app.js]"; AStr "Probing candidate:"; AStr c]);
    (LevelLog, [AStr "[app.js]"; AStr "Fetch result for"; AStr c; AInfo info]) ]
  ++
  if ok info then
    [ (LevelLog, [AStr "[app.js]"; AStr "Attempting tf.loadLayersModel(";
                  AStr c; AStr ")"]);
      match load c with
      | Ok m => (LevelLog, [AStr "[app.js]";
                            AStr "Model loaded successfully from"; AStr c;
                            AModel m])
      | Throw e => (LevelWarn, [AStr "[app.js]";
                                AStr "tf.loadLayersModel failed for"; AStr c;
                                AThrown e])
      end ]
  else
    [ (LevelWarn, [AStr "[app.js]"; AStr "Fetch failed or not OK for"; AStr c;
                   AInfo info]) ].

(** The external operations and slot writes of one iteration. *)
Definition candidate_events (env : Env) (load : string -> Result ModelHandle)
    (c : string) : list Event :=
  if probe_ok env c then
    match load c with
    | Ok m => [EFetch c; ELoad c; EModelWrite m]
    | Throw _ => [EFetch c; ELoad c]
    end
  else [EFetch c].

(** The errors thrown by the load attempts on a list, in order. *)
Definition load_errors (env : Env) (load : string -> Result ModelHandle)
    (cs : list string) : list Thrown :=
  flat_map (fun c => if probe_ok env c then
                       match load c with
                       | Ok _ => []
                       | Throw e => [e]
                       end
                     else []) cs.

(** The entries [log('Fetch result for', candidate, fetchInfo)] of a console
    excerpt: the probe results the candidate loop recorded. *)
Definition fetch_results (logs : list LogEntry) : list (string * ProbeResult) :=
  flat_map (fun entry =>
              match entry with
              | (LevelLog, [AStr _; AStr label; AStr c; AInfo info]) =>
                if String.eqb label "Fetch result for" then [(c, info)] else []
              | _ => []
              end) logs.

(** The locations requested by the [fetch] calls of a trace, in order. *)
Definition fetched_urls (events : list Event) : list string :=
  flat_map (fun ev => match ev with
                      | EFetch url => [url]
                      | _ => []
                      end) events.

(** The entries the detached probes write: [log('probe', c, info)]. *)
Definition is_probe_log (entry : LogEntry) : Prop :=
  exists c info,
    entry = (LevelLog, [AStr "[app.js]"; AStr "probe"; AStr c; AInfo info]).

Definition is_model_write (ev : Event) : bool :=
  match ev with
  | EModelWrite _ => true
  | _ => false
  end.

(** The number of writes to the [model] slot in a trace. *)
Definition model_writes (events : list Event) : nat :=
  List.length (filter is_model_write events).

(** The console entry that opens every run. *)
Definition start_entry : LogEntry :=
  (LevelLog, [AStr "[app.js]"; AStr "Starting model load sequence..."]).

(** The two console entries that close a run in which no candidate
    worked. *)
Definition failure_entries (lastError : option Thrown) : list LogEntry :=
  [ (LevelError, [AStr "[app.js]";
                  AStr "Model load failed for all candidate paths. Last error:";
                  arg_of_lastError lastError]);
    (LevelError, [AStr "[app.js]"; AStr "Network probes summary:"]) ].

(** [tf.loadLayersModel] when the runtime is present and has it. *)
Definition runtime_loader (env : Env) : option (string -> Result ModelHandle) :=
  match tf env with
  | Some t => loadLayersModel t
  | None => None
  end.

(** Two environments answer alike on a candidate list: the runtime offers the
    same capability, and every fetch and every load of a listed location has
    the same answer. *)
Definition same_answers (env1 env2 : Env) (cs : list string) : Prop :=
  (forall c, In c cs -> fetch_answer env1 c = fetch_answer env2 c) /\
  match tf env1, tf env2 with
  | None, None => True
  | Some t1, Some t2 =>
    match loadLayersModel t1, loadLayersModel t2 with
    | None, None => True
    | Some load1, Some load2 => forall c, In c cs -> load1 c = load2 c
    | _, _ => False
    end
  | _, _ => False
  end.

(** ** The upload and prediction path

    The rest of the script: [predictImage], [showPreview] and the event
    handlers of the file input, the [FileReader] and the preview image.
    They act on a page that holds the script's state together with the
    preview container, the readers and images whose events are pending, and
    a trace of the calls made on the inference runtime.

    Numbers are IEEE 754 binary64 values.  The runtime's tensor pipeline
    ([tf.browser.fromPixels], [tf.image.resizeBilinear], [toFloat], [div],
    [expandDims], [model.predict]) is external: the browser gives the value
    the callback of [tf.tidy] computes, or the exception it throws. *)

Record File := mkFile { file_name : string }.

(** The [Image] element [showPreview] builds. *)
Record Img := mkImg {
  img_crossOrigin : string;
  img_src : string;
  img_alt : string;
  img_style_width : string;
  img_style_height : string;
  img_style_objectFit : string
}.

(** A tensor as the script uses it: [data()] settles with the values or
    throws; the [dispose] property is absent ([None]) or a method whose call
    returns or throws. *)
Record Tensor := mkTensor {
  tensor_id : nat;
  tensor_data : Result (list float);
  tensor_dispose : option (Result unit)
}.

(** What [model.predict] returns: a tensor or an array of tensors. *)
Inductive Output :=
| OutTensor (t : Tensor)
| OutArray (ts : list Tensor).

(** Calls made on the inference runtime, in order. *)
Inductive RuntimeEvent :=
| ETidy (m : ModelHandle) (img : Img)
| EData (id : nat)
| EDispose (id : nat).

Record Page := mkPage {
  script : State;
  imgPreview_hidden : bool;
  imgPreview_children : list Img;
  reading : list File;
  decoding : list Img;
  runtime_trace : list RuntimeEvent
}.

Definition initial_page : Page := mkPage initial_state true [] [] [] [].

(** The browser around the page: the network and runtime of [loadModel],
    the value of [model.predict] inside [tf.tidy], the number of arguments
    a call may spread ([None]: no limit), and [Number.prototype.toFixed]. *)
Record Browser := mkBrowser {
  network : Env;
  tf_tidy_predict : ModelHandle -> Img -> Result Output;
  argument_limit : option nat;
  Number_toFixed : float -> Z -> string
}.

(** [Math.max] on numbers: [-Infinity] without arguments, [NaN] as soon as
    one argument is [NaN], and [+0] above [-0]. *)
Definition Math_max (values : list float) : float :=
  if existsb is_nan values then nan
  else
    fold_left
      (fun highest number =>
         if match classify number, classify highest with
            | FloatClass.PZero, FloatClass.NZero => true
            | _, _ => false
            end
         then number
         else if PrimFloat.ltb highest number then number else highest)
      values neg_infinity.

Definition P (A : Type) : Type := Page -> Result A * Page.

Definition pret {A} (a : A) : P A := fun p => (Ok a, p).

Definition pbind {A B} (m : P A) (k : A -> P B) : P B :=
  fun p =>
    match m p with
    | (Ok a, p') => k a p'
    | (Throw e, p') => (Throw e, p')
    end.

Definition pthrow {A} (e : Thrown) : P A := fun p => (Throw e, p).

(** [try { body } catch (e) { handler e }] on the page. *)
Definition ptry_catch {A} (body : P A) (handler : Thrown -> P A) : P A :=
  fun p =>
    match body p with
    | (Ok a, p') => (Ok a, p')
    | (Throw e, p') => handler e p'
    end.

(** The completion of a statement inside a [try] block, kept as a value. *)
Definition attempt {A} (m : P A) : P (Result A) :=
  fun p => (Ok (fst (m p)), snd (m p)).

Definition psettle {A} (r : Result A) : P A := fun p => (r, p).

(** A computation of the loader's monad, run on the script part of the
    page. *)
Definition lift {A} (m : M A) : P A :=
  fun p =>
    (fst (m (script p)),
     mkPage (snd (m (script p))) (imgPreview_hidden p) (imgPreview_children p)
            (reading p) (decoding p) (runtime_trace p)).

Declare Scope page_scope.
Delimit Scope page_scope with page.
Notation "x <- m ;; k" := (pbind m (fun x => k))
  (at level 61, m at next level, right associativity) : page_scope.
Notation "m ;; k" := (pbind m (fun _ => k))
  (at level 61, right associativity) : page_scope.
Open Scope page_scope.

Definition read_model : P (option ModelHandle) :=
  fun p => (Ok (model (script p)), p).

Definition runtime_emit (ev : RuntimeEvent) : P unit :=
  fun p => (Ok tt,
            mkPage (script p) (imgPreview_hidden p) (imgPreview_children p)
                   (reading p) (decoding p) (runtime_trace p ++ [ev])).

(** [imgPreview.hidden = v] *)
Definition set_imgPreview_hidden (v : bool) : P unit :=
  fun p => (Ok tt,
            mkPage (script p) v (imgPreview_children p) (reading p)
                   (decoding p) (runtime_trace p)).

(** [imgPreview.innerHTML = '']: the container loses its children. *)
Definition imgPreview_clear : P unit :=
  fun p => (Ok tt,
            mkPage (script p) (imgPreview_hidden p) [] (reading p)
                   (decoding p) (runtime_trace p)).

(** [imgPreview.appendChild(img)] *)
Definition imgPreview_appendChild (img : Img) : P unit :=
  fun p => (Ok tt,
            mkPage (script p) (imgPreview_hidden p)
                   (imgPreview_children p ++ [img]) (reading p) (decoding p)
                   (runtime_trace p)).

Definition set_reading (files : list File) : P unit :=
  fun p => (Ok tt,
            mkPage (script p) (imgPreview_hidden p) (imgPreview_children p)
                   files (decoding p) (runtime_trace p)).

Definition set_decoding (imgs : list Img) : P unit :=
  fun p => (Ok tt,
            mkPage (script p) (imgPreview_hidden p) (imgPreview_children p)
                   (reading p) imgs (runtime_trace p)).

(** [reader.readAsDataURL(file)], the reader having its two handlers: the
    read is pending. *)
Definition reader_readAsDataURL (file : File) : P unit :=
  fun p => set_reading (reading p ++ [file]) p.

(** [img.onload = ...; img.onerror = ...] on an image whose [src] is set:
    its decoding is pending. *)
Definition img_attach_handlers (img : Img) : P unit :=
  fun p => set_decoding (decoding p ++ [img]) p.

(** [Array.isArray(out) ? out[0] : out]: the first element of an empty
    array is [undefined]. *)
Definition select_logits (out : Output) : option Tensor :=
  match out with
  | OutTensor t => Some t
  | OutArray ts => hd_error ts
  end.

Section Upload.

Variable browser : Browser.

(** [tf.tidy(() => { ...; const out = model.predict(normalized);
    return Array.isArray(out) ? out[0] : out; })] *)
Definition tf_tidy (m : ModelHandle) (imgElement : Img) : P (option Tensor) :=
  runtime_emit (ETidy m imgElement) ;;
  out <- psettle (tf_tidy_predict browser m imgElement) ;;
  pret (select_logits out).

(** [await logits.data()]; reading [data] of [undefined] throws. *)
Definition logits_data (logits : option Tensor) : P (list float) :=
  match logits with
  | None =>
    pthrow (mkThrown "TypeError"
              "Cannot read properties of undefined (reading 'data')")
  | Some t => runtime_emit (EData (tensor_id t)) ;; psettle (tensor_data t)
  end.

(** [Math.max(...data)], which the engine refuses beyond its argument
    limit. *)
Definition Math_max_spread (data : list float) : P float :=
  match argument_limit browser with
  | Some limit =>
    if Nat.ltb limit (List.length data)
    then pthrow (mkThrown "RangeError" "Maximum call stack size exceeded")
    else pret (Math_max data)
  | None => pret (Math_max data)
  end.

(** [if (t.dispose) t.dispose();] on a tensor. *)
Definition dispose_if_present (t : Tensor) : P unit :=
  match tensor_dispose t with
  | None => pret tt
  | Some completion =>
    runtime_emit (EDispose (tensor_id t)) ;; psettle completion
  end.

(** [if (logits.dispose) logits.dispose();] *)
Definition logits_dispose (logits : option Tensor) : P unit :=
  match logits with
  | None =>
    pthrow (mkThrown "TypeError"
              "Cannot read properties of undefined (reading 'dispose')")
  | Some t => dispose_if_present t
  end.

(** [try { if (logits && logits.dispose) logits.dispose(); } catch (_) {}] *)
Definition logits_cleanup (logits : option Tensor) : P unit :=
  ptry_catch
    match logits with
    | None => pret tt
    | Some t => dispose_if_present t
    end
    (fun _ => pret tt).

(** [predictImage].  The local [logits] is [undefined] until [tf.tidy]
    has returned, so the [try] block is run in two parts: the assignment,
    whose failure reaches the handler with [logits] undefined, and the
    rest, whose failure reaches it with [logits] assigned. *)
Definition predictImage (imgElement : Img) : P float :=
  current <- read_model ;;
  match current with
  | None => pthrow (mkThrown "Error" "Model not loaded")
  | Some m =>
    assigned <- attempt (tf_tidy m imgElement) ;;
    match assigned with
    | Throw e => logits_cleanup None ;; pthrow e
    | Ok logits =>
      ptry_catch
        (data <- logits_data logits ;;
         highest <- Math_max_spread data ;;
         logits_dispose logits ;;
         pret (PrimFloat.mul highest 100))
        (fun e => logits_cleanup logits ;; pthrow e)
    end
  end.

(** [showPreview] *)
Definition showPreview (dataUrl : string) : P Img :=
  set_imgPreview_hidden false ;;
  imgPreview_clear ;;
  let img := mkImg "anonymous" dataUrl "Uploaded preview" "100%" "100%"
                   "cover" in
  imgPreview_appendChild img ;;
  pret img.

(** The [onload] handler of the preview image; [report] is the console
    method it reports a failed prediction with. *)
Definition img_onload_with (report : list Arg -> M unit) (img : Img)
    : P unit :=
  ptry_catch
    (conf <- predictImage img ;;
     lift (set_output_textContent
             ("Confidence: " ++ Number_toFixed browser conf 2
                             ++ "% Replica")))
    (fun err =>
       lift (set_output_textContent "Error processing image.") ;;
       lift (report [AStr "Prediction error:"; AThrown err])) ;;
  lift (set_loader_style_display "none").

Definition img_onload : Img -> P unit := img_onload_with error.

(** The [onerror] handler of the preview image. *)
Definition img_onerror : P unit :=
  lift (set_loader_style_display "none") ;;
  lift (set_output_textContent "Error loading image.").

(** The [onload] handler of the reader: the preview is shown and the two
    handlers are attached to the new image. *)
Definition reader_onload (dataUrl : string) : P unit :=
  img <- showPreview dataUrl ;;
  img_attach_handlers img.

(** The [onerror] handler of the reader. *)
Definition reader_onerror : P unit :=
  lift (set_loader_style_display "none") ;;
  lift (set_output_textContent "Error reading file.").

(** The [change] handler of the file input; [files] is [e.target.files],
    [None] when it is [null]. *)
Definition fileInput_change (files : option (list File)) : P unit :=
  let file := match files with
              | Some fs => hd_error fs
              | None => None
              end in
  match file with
  | None => lift (set_output_textContent "No file selected.")
  | Some f =>
    current <- read_model ;;
    match current with
    | None => lift (set_output_textContent "Model not loaded yet...")
    | Some _ =>
      lift (set_loader_style_display "block") ;;
      lift (set_output_textContent "Processing image...") ;;
      reader_readAsDataURL f
    end
  end.



End Upload.

Close Scope page_scope.

(** ** The single-path loader

    [loadModel] of [static/js/app.js]: one location, no probe, and no check
    of the runtime before it is used. *)

Module StaticApp.

Section Script.

Variable env : Env.

(** Evaluating [tf.loadLayersModel('./model.json')]: the reference to [tf]
    throws when it is not defined, the call throws when the property is not
    a function. *)
Definition tf_loadLayersModel_call (url : string) : M ModelHandle :=
  match tf env with
  | None => settle (Throw (mkThrown "ReferenceError" "tf is not defined"))
  | Some t =>
    match loadLayersModel t with
    | None =>
      settle (Throw (mkThrown "TypeError"
                       "tf.loadLayersModel is not a function"))
    | Some load => tf_loadLayersModel load url
    end
  end.

Definition console_error (args : list Arg) : M unit :=
  console_write (LevelError, args).

Definition loadModel : M unit :=
  set_loader_style_display "block" ;;
  set_output_textContent "Loading model..." ;;
  try_catch
    (m <- tf_loadLayersModel_call "./model.json" ;;
     set_model m ;;
     set_loader_style_display "none" ;;
     set_output_textContent "Model loaded. Upload an image to start.")
    (fun err =>
       set_loader_style_display "none" ;;
       set_output_textContent
         "Error loading model. Ensure model.json and weights are hosted and accessible via HTTP(S)." ;;
       console_error [AStr "Model load error:"; AThrown err]).

End Script.

(** The [onload] handler of the preview image, which reports through
    [console.error]. *)
Definition img_onload (browser : Browser) : Img -> P unit :=
  img_onload_with browser console_error.

End StaticApp.

(** ** Reading a page and a run *)

(** The model of the first usable candidate of a list. *)
Fixpoint first_model (env : Env) (load : string -> Result ModelHandle)
    (cs : list string) : option ModelHandle :=
  match cs with
  | [] => None
  | c :: rest =>
    match usable env load c with
    | Some m => Some m
    | None => first_model env load rest
    end
  end.

(** The locations passed to [tf.loadLayersModel] in a trace, in order. *)
Definition loaded_urls (events : list Event) : list string :=
  flat_map (fun ev => match ev with
                      | ELoad url => [url]
                      | _ => []
                      end) events.

(** A console entry written through [log], [warn] or [error]. *)
Definition is_tagged (entry : LogEntry) : Prop :=
  exists args, snd entry = AStr "[app.js]" :: args.

(** The number of calls of [dispose] on tensor [id] in a runtime trace. *)
Definition disposals (id : nat) (events : list RuntimeEvent) : nat :=
  List.length (filter (fun ev => match ev with
                                 | EDispose id' => Nat.eqb id id'
                                 | _ => false
                                 end) events).

(** The runtime calls of a [predictImage] that got the tensor [t] from
    [tf.tidy]: the tidy, the read of the values, and [dispose_calls] calls
    of [dispose]. *)
Definition predict_events (m : ModelHandle) (img : Img) (t : Tensor)
    (dispose_calls : nat) : list RuntimeEvent :=
  ETidy m img :: EData (tensor_id t)
    :: repeat (EDispose (tensor_id t)) dispose_calls.


(** ** A sample browser *)

Definition sample_logits : Tensor :=
  mkTensor 7 (Ok [0.25%float; 0.5%float; 0.125%float]) (Some (Ok tt)).

(** A tensor that was disposed of behind the script's back. *)
Definition sample_stale_logits : Tensor :=
  mkTensor 8 (Throw (mkThrown "Error" "Tensor is disposed."))
           (Some (Throw (mkThrown "Error" "Tensor is disposed."))).

(** A tensor whose values can be read and whose [dispose] throws. *)
Definition sample_sticky_logits : Tensor :=
  mkTensor 9 (Ok [0.75%float]) (Some (Throw (mkThrown "Error" "busy"))).

Definition sample_toFixed (x : float) (digits : Z) : string :=
  if PrimFloat.eqb x 50%float then "50.00" else "0.00".

(** A browser on the sample host whose model answers every image with the
    array holding [sample_logits], except the image whose source is
    ['data:stale'] or ['data:sticky']. *)
Definition sample_browser : Browser :=
  mkBrowser sample_env
    (fun _ img =>
       if String.eqb (img_src img) "data:stale"
       then Ok (OutTensor sample_stale_logits)
       else if String.eqb (img_src img) "data:sticky"
       then Ok (OutTensor sample_sticky_logits)
       else Ok (OutArray [sample_logits]))
    None sample_toFixed.

Definition sample_img (src : string) : Img :=
  mkImg "anonymous" src "Uploaded preview" "100%" "100%" "cover".

(** The page once [loadModel] has run on the sample host. *)
Definition sample_loaded_page : Page :=
  snd (lift (loadModel sample_env) initial_page).

(** A host that serves the manifest at every location. *)
Definition sample_env_plain : Env :=
  mkEnv (Some (mkTf (Some (fun url => Ok (LayersModel url)))))
        (fun _ => Ok model_json).



(** ** The string preview *)

Lemma substring_0_length (n : nat) (s : string) :
  String.length (substring 0 n s) = Nat.min n (String.length s).
Proof.
  revert n; induction s as [| a s IH]; intros [| n]; simpl; auto.
Qed.

Lemma substring_0_prefix (n : nat) (s : string) :
  prefix (substring 0 n s) s = true.
Proof.
  revert n; induction s as [| a s IH]; intros [| n]; simpl; auto.
  destruct (Ascii.ascii_dec a a); [apply IH | congruence].
Qed.

Lemma substring_0_all (n : nat) (s : string) :
  String.length s <= n -> substring 0 n s = s.
Proof.
  revert n; induction s as [| a s IH]; intros [| n]; simpl; auto; intros H.
  - lia.
  - f_equal; apply IH; lia.
Qed.

Lemma slice_0_1000 (s : string) : slice s 0 1000 = substring 0 1000 s.
Proof.
  unfold slice.
  change (0 <? 0)%Z with false; change (1000 <? 0)%Z with false; cbv iota.
  rewrite Z.min_l by lia. change (Z.to_nat 0) with 0%nat.
  rewrite Z.sub_0_r.
  destruct (Z.le_gt_cases 1000 (Z.of_nat (String.length s))) as [H | H].
  - rewrite Z.min_l by lia. reflexivity.
  - rewrite Z.min_r by lia. rewrite Z.max_l by lia. rewrite Nat2Z.id.
    rewrite substring_0_all by lia.
    symmetry; apply substring_0_all. lia.
Qed.

(** ** The probe *)

Lemma tryFetchInfo_resume_eq (env : Env) (url : string) (st : State) :
  tryFetchInfo_resume env url st = (Ok (probe_info_of (fetch_answer env url)), st).
Proof.
  unfold tryFetchInfo_resume, tryFetchInfo_body, fetch_await, try_catch, bind,
    settle, ret, probe_info_of.
  destruct (fetch_answer env url) as [res | e]; [| reflexivity].
  destruct (res_clone_text res); reflexivity.
Qed.

Lemma tryFetchInfo_eq (env : Env) (url : string) (st : State) :
  tryFetchInfo env url st
  = (Ok (probe_info_of (fetch_answer env url)), extend st [] [EFetch url]).
Proof.
  unfold tryFetchInfo, tryFetchInfo_body, fetch, fetch_call, fetch_await,
    try_catch, bind, settle, ret, emit, modify, probe_info_of, extend.
  rewrite app_nil_r.
  destruct (fetch_answer env url) as [res | e]; [| reflexivity].
  destruct (res_clone_text res); reflexivity.
Qed.

Lemma tryFetchInfo_probe_ok (env : Env) (c : string) (st : State) :
  exists info,
    fst (tryFetchInfo env c st) = Ok info /\ ok info = probe_ok env c.
Proof. rewrite tryFetchInfo_eq. eexists; split; reflexivity. Qed.

Lemma probe_ok_true (env : Env) (c : string) :
  probe_ok env c = true
  <-> exists res, fetch_answer env c = Ok res /\ res_ok res = true.
Proof.
  unfold probe_ok. destruct (fetch_answer env c) as [res | e]; cbn.
  - split; [intros H; now exists res | intros (res' & [= <-] & H); exact H].
  - split; [discriminate | intros (res' & [=] & _)].
Qed.

Lemma probe_ok_false (env : Env) (c : string) :
  probe_ok env c = false
  <-> (exists e, fetch_answer env c = Throw e)
      \/ (exists res, fetch_answer env c = Ok res /\ res_ok res = false).
Proof.
  unfold probe_ok. destruct (fetch_answer env c) as [res | e]; cbn.
  - split.
    + intros H; right; now exists res.
    + intros [(e & [=]) | (res' & [= <-] & H)]; exact H.
  - split; [intros _; left; now exists e | reflexivity].
Qed.

(** C9.  When the fetch is fulfilled with a response [res], the object
    [tryFetchInfo] returns records [res.ok], [res.status], [res.url], the
    value of the [access-control-allow-origin] header and a preview.  When
    the body text [txt] can be read the preview is [txt.slice(0, 1000)]: a
    prefix of [txt] of length [min 1000 (length txt)], hence of at most 1000
    characters, and the whole of [txt] when that is no longer than 1000.
    When the body cannot be read the preview is the fixed text
    ['(preview not available)']. *)
Theorem tryFetchInfo_fulfilled_records :
  forall (env : Env) (url : string) (st : State) (res : Response),
    fetch_answer env url = Ok res ->
    exists preview,
      fst (tryFetchInfo env url st)
      = Ok (ProbeInfo (res_ok res) (res_status res) (res_url res)
              (res_headers_get res "access-control-allow-origin") preview)
      /\ String.length preview <= 1000
      /\ match res_clone_text res with
         | Ok txt =>
           preview = slice txt 0 1000
           /\ prefix preview txt = true
           /\ String.length preview = Nat.min 1000 (String.length txt)
           /\ (String.length txt <= 1000 -> preview = txt)
         | Throw _ => preview = "(preview not available)"
         end.
Proof.
  intros env url st res Hres.
  rewrite tryFetchInfo_eq, Hres. cbn [fst probe_info_of].
  eexists; split; [reflexivity |].
  destruct (res_clone_text res) as [txt | e].
  - rewrite slice_0_1000. split; [| repeat split].
    + rewrite substring_0_length. lia.
    + apply substring_0_prefix.
    + apply substring_0_length.
    + apply substring_0_all.
  - split; [| reflexivity]. cbn. lia.
Qed.

(** C10.  [tryFetchInfo] never throws: on every location, for every answer of
    the network and from every state, it returns an object, having done
    nothing but issue the request.  The [ok] property of that object is a
    boolean; when the fetch threw [e] the object is
    [{ ok: false, error: String(e) }], and when only the body read failed the
    object is still the response's record, with the placeholder preview. *)
Theorem tryFetchInfo_total :
  forall (env : Env) (url : string) (st : State),
    exists info : ProbeResult,
      tryFetchInfo env url st = (Ok info, extend st [] [EFetch url])
      /\ match fetch_answer env url with
         | Throw e =>
           info = ProbeError (toString e)
           /\ ok info = false
           /\ error_of info = Some (toString e)
         | Ok res =>
           ok info = res_ok res
           /\ error_of info = None
           /\ match res_clone_text res with
              | Ok txt => preview_of info = Some (slice txt 0 1000)
              | Throw _ => preview_of info = Some "(preview not available)"
              end
         end.
Proof.
  intros env url st. rewrite tryFetchInfo_eq.
  eexists; split; [reflexivity |].
  destruct (fetch_answer env url) as [res | e]; cbn.
  - repeat split. destruct (res_clone_text res); reflexivity.
  - repeat split.
Qed.

(** ** The candidate loop, one iteration at a time *)

Lemma extend_extend (st : State) l1 e1 l2 e2 :
  extend (extend st l1 e1) l2 e2 = extend st (l1 ++ l2) (e1 ++ e2).
Proof. unfold extend; cbn. now rewrite <- !app_assoc. Qed.

Lemma last_cons {A} (a : A) (l : list A) (d : A) : last (a :: l) d = last l a.
Proof.
  revert a d; induction l as [| b l IH]; intros a d; [reflexivity |].
  change (last (a :: b :: l) d) with (last (b :: l) d).
  now rewrite (IH b d), (IH b a).
Qed.

Lemma extend_nil (st : State) : extend st [] [] = st.
Proof. destruct st; unfold extend; cbn. now rewrite !app_nil_r. Qed.

Ltac run_iteration :=
  cbn [candidates_loop]; unfold bind at 1; unfold log at 1, console_write;
  unfold modify at 1; unfold bind at 1; rewrite tryFetchInfo_eq;
  unfold bind at 1; unfold log at 1, console_write; unfold modify at 1.

Ltac finish_iteration :=
  match goal with
  | |- context [probe_info_of ?a] => generalize (probe_info_of a); intros ?
  end;
  cbv beta iota zeta delta - [app candidates_loop];
  rewrite <- ?app_assoc; reflexivity.

Section Iteration.

Variable env : Env.
Variable load : string -> Result ModelHandle.

(** A candidate whose probe reports failure: three console entries, one
    request, and the loop goes on with [lastError] as it was. *)
Lemma iteration_probe_failed (c : string) (rest : list string)
    (lastError : option Thrown) (st : State) :
  probe_ok env c = false ->
  candidates_loop env load (c :: rest) lastError st
  = candidates_loop env load rest lastError
      (extend st (candidate_logs env load c) [EFetch c]).
Proof.
  unfold probe_ok, candidate_logs. intros Hok. run_iteration.
  rewrite Hok. cbn [negb]. finish_iteration.
Qed.

(** A candidate that probes successfully and whose load throws [e]: four
    console entries, one request, one load call, and the loop goes on with
    [lastError] set to [e]. *)
Lemma iteration_load_failed (c : string) (rest : list string)
    (lastError : option Thrown) (st : State) (e : Thrown) :
  probe_ok env c = true -> load c = Throw e ->
  candidates_loop env load (c :: rest) lastError st
  = candidates_loop env load rest (Some e)
      (extend st (candidate_logs env load c) [EFetch c; ELoad c]).
Proof.
  unfold probe_ok, candidate_logs. intros Hok Hload. run_iteration.
  rewrite Hok. cbn [negb]. unfold tf_loadLayersModel. rewrite Hload.
  finish_iteration.
Qed.

(** A candidate that probes successfully and loads [m]: the slot and the two
    DOM properties are written and [loadModel] returns. *)
Lemma iteration_loaded (c : string) (rest : list string)
    (lastError : option Thrown) (st : State) (m : ModelHandle) :
  probe_ok env c = true -> load c = Ok m ->
  candidates_loop env load (c :: rest) lastError st
  = (Ok Return,
     mkState (Some m) "none" "Model loaded. Upload an image to start."
       (console st ++ candidate_logs env load c)
       (trace st ++ [EFetch c; ELoad c; EModelWrite m])
       (detached st)).
Proof.
  unfold probe_ok, candidate_logs. intros Hok Hload. run_iteration.
  rewrite Hok. cbn [negb]. unfold tf_loadLayersModel. rewrite Hload.
  finish_iteration.
Qed.

Lemma usable_None_events (c : string) :
  usable env load c = None ->
  candidate_events env load c
  = if probe_ok env c then [EFetch c; ELoad c] else [EFetch c].
Proof.
  unfold usable, candidate_events.
  destruct (probe_ok env c); [| reflexivity].
  destruct (load c); [discriminate | reflexivity].
Qed.

(** The loop over a prefix in which no candidate is usable. *)
Lemma loop_skip (pre rest : list string) :
  (forall c, In c pre -> usable env load c = None) ->
  forall (lastError : option Thrown) (st : State),
    candidates_loop env load (pre ++ rest) lastError st
    = candidates_loop env load rest
        (last (map Some (load_errors env load pre)) lastError)
        (extend st (flat_map (candidate_logs env load) pre)
                   (flat_map (candidate_events env load) pre)).
Proof.
  induction pre as [| c pre IH]; intros Hpre lastError st.
  - cbn. now rewrite extend_nil.
  - assert (Hc : usable env load c = None) by (apply Hpre; now left).
    assert (Hpre' : forall c', In c' pre -> usable env load c' = None)
      by (intros c' Hin; apply Hpre; now right).
    cbn [app flat_map load_errors]. fold (load_errors env load pre).
    rewrite (usable_None_events c Hc).
    unfold usable in Hc.
    destruct (probe_ok env c) eqn:Hok.
    + destruct (load c) as [m | e] eqn:Hload; [discriminate |].
      rewrite (iteration_load_failed c _ lastError st e Hok Hload).
      rewrite IH by exact Hpre'. rewrite extend_extend.
      f_equal. cbn [app map]. symmetry; apply last_cons.
    + rewrite (iteration_probe_failed c _ lastError st Hok).
      rewrite IH by exact Hpre'. rewrite extend_extend. reflexivity.
Qed.

(** Either no candidate of a list is usable, or there is a first one. *)
Lemma first_usable (cs : list string) :
  (forall c, In c cs -> usable env load c = None)
  \/ exists (pre : list string) c m post,
       cs = (pre ++ c :: post)%list
       /\ usable env load c = Some m
       /\ forall c', In c' pre -> usable env load c' = None.
Proof.
  induction cs as [| c cs IH].
  - left. intros c [].
  - destruct (usable env load c) as [m |] eqn:Hc.
    + right. exists [], c, m, cs. repeat split; auto. intros c' [].
    + destruct IH as [Hall | (pre & c0 & m & post & -> & Hc0 & Hpre)].
      * left. intros c' [<- | Hin]; auto.
      * right. exists (c :: pre), c0, m, post. repeat split; auto.
        intros c' [<- | Hin]; auto.
Qed.

Lemma usable_Some (c : string) (m : ModelHandle) :
  usable env load c = Some m <-> probe_ok env c = true /\ load c = Ok m.
Proof.
  unfold usable. destruct (probe_ok env c); [| split; [discriminate | intros [? _]; discriminate]].
  destruct (load c); split; try discriminate; try (intros [_ H]; discriminate).
  - intros [= ->]; auto.
  - intros [_ [= ->]]; auto.
Qed.

End Iteration.

(** ** The whole of [loadModel] *)

Ltac run_script :=
  cbv beta iota zeta
    delta [bind ret modify settle try_catch log warn error console_write emit
           detach set_model set_loader_style_display set_output_textContent
           model loader_style_display output_textContent console trace
           detached extend fst snd failure_entries start_entry fetch_call].

Lemma probes_summary_eq (cs : list string) (st : State) :
  probes_summary cs st
  = (Ok tt,
     mkState (model st) (loader_style_display st) (output_textContent st)
       (console st) (trace st ++ map EFetch cs) (detached st ++ cs)).
Proof.
  revert st; induction cs as [| c cs IH]; intros st.
  - cbn [probes_summary map]. unfold ret. rewrite !app_nil_r.
    now destruct st.
  - cbn [probes_summary map]. run_script. rewrite IH. run_script.
    now rewrite <- !app_assoc.
Qed.

Section Run.

Variable env : Env.
Variable t : Tf.
Variable load : string -> Result ModelHandle.
Hypothesis Htf : tf env = Some t.
Hypothesis Hload : loadLayersModel t = Some load.

(** The run in which [c] is the first usable candidate. *)
Lemma loadModel_with_loaded (final_pass : list string -> M unit)
    (pre post : list string) (c : string) (m : ModelHandle) (st : State) :
  (forall c', In c' pre -> usable env load c' = None) ->
  usable env load c = Some m ->
  loadModel_with env final_pass (pre ++ c :: post) st
  = (Ok tt,
     mkState (Some m) "none" "Model loaded. Upload an image to start."
       (console st ++ start_entry :: flat_map (candidate_logs env load) pre
                   ++ candidate_logs env load c)
       (trace st ++ flat_map (candidate_events env load) pre
                 ++ [EFetch c; ELoad c; EModelWrite m])
       (detached st)).
Proof.
  intros Hpre Hc. apply usable_Some in Hc. destruct Hc as [Hok Hm].
  unfold loadModel_with. rewrite Htf, Hload. run_script.
  rewrite (loop_skip env load pre (c :: post) Hpre).
  rewrite (iteration_loaded env load c post _ _ m Hok Hm). run_script.
  rewrite <- !app_assoc. reflexivity.
Qed.

(** The run in which no candidate is usable, up to the final pass. *)
Lemma loadModel_with_failed (final_pass : list string -> M unit)
    (cs : list string) (st : State) :
  (forall c, In c cs -> usable env load c = None) ->
  loadModel_with env final_pass cs st
  = final_pass cs
      (mkState (model st) "none" "Model not loaded. See console for details."
         (console st ++ start_entry :: flat_map (candidate_logs env load) cs
                     ++ failure_entries
                          (last (map Some (load_errors env load cs)) None))
         (trace st ++ flat_map (candidate_events env load) cs)
         (detached st)).
Proof.
  intros Hcs.
  unfold loadModel_with. rewrite Htf, Hload. run_script.
  rewrite <- (app_nil_r cs) at 1.
  rewrite (loop_skip env load cs [] Hcs). cbn [candidates_loop]. run_script.
  rewrite <- !app_assoc. reflexivity.
Qed.

Lemma loadModelFrom_failed (cs : list string) (st : State) :
  (forall c, In c cs -> usable env load c = None) ->
  loadModelFrom env cs st
  = (Ok tt,
     mkState (model st) "none" "Model not loaded. See console for details."
       (console st ++ start_entry :: flat_map (candidate_logs env load) cs
                   ++ failure_entries
                        (last (map Some (load_errors env load cs)) None))
       (trace st ++ flat_map (candidate_events env load) cs ++ map EFetch cs)
       (detached st ++ cs)).
Proof.
  intros Hcs. unfold loadModelFrom.
  rewrite (loadModel_with_failed _ cs st Hcs), probes_summary_eq.
  run_script. rewrite <- !app_assoc. reflexivity.
Qed.

End Run.

(** The run when the runtime is missing or lacks [loadLayersModel]. *)
Lemma loadModel_with_unavailable (env : Env)
    (final_pass : list string -> M unit) (cs : list string) (st : State) :
  runtime_loader env = None ->
  loadModel_with env final_pass cs st
  = (Ok tt,
     mkState (model st) "none"
       match tf env with
       | None => "TensorFlow.js not loaded. Check network/CSP."
       | Some _ => "Incompatible TF.js build: loadLayersModel missing."
       end
       (console st ++
        [ start_entry;
          match tf env with
          | None =>
            (LevelError,
             [AStr "[app.js]";
              AStr "tf is undefined; TF.js script may be blocked or failed to load."])
          | Some _ =>
            (LevelError,
             [AStr "[app.js]";
              AStr "tf.loadLayersModel is not a function. TF.js build missing layers API? tf:";
              ATf])
          end ])
       (trace st) (detached st)).
Proof.
  unfold runtime_loader, loadModel_with. intros Hrt.
  destruct (tf env) as [t |].
  - rewrite Hrt. run_script. rewrite <- !app_assoc. reflexivity.
  - run_script. rewrite <- !app_assoc. reflexivity.
Qed.

(** ** Properties of the probing and load sequence *)

Lemma candidate_logs_loaded env load c m :
  probe_ok env c = true -> load c = Ok m ->
  candidate_logs env load c
  = [ (LevelLog, [AStr "[app.js]"; AStr "Probing candidate:"; AStr c]);
      (LevelLog, [AStr "[app.js]"; AStr "Fetch result for"; AStr c;
                  AInfo (probe_info_of (fetch_answer env c))]);
      (LevelLog, [AStr "[app.js]"; AStr "Attempting tf.loadLayersModel(";
                  AStr c; AStr ")"]);
      (LevelLog, [AStr "[app.js]"; AStr "Model loaded successfully from";
                  AStr c; AModel m]) ].
Proof.
  unfold probe_ok, candidate_logs. intros -> ->. reflexivity.
Qed.

Lemma candidate_logs_load_failed env load c e :
  probe_ok env c = true -> load c = Throw e ->
  candidate_logs env load c
  = [ (LevelLog, [AStr "[app.js]"; AStr "Probing candidate:"; AStr c]);
      (LevelLog, [AStr "[app.js]"; AStr "Fetch result for"; AStr c;
                  AInfo (probe_info_of (fetch_answer env c))]);
      (LevelLog, [AStr "[app.js]"; AStr "Attempting tf.loadLayersModel(";
                  AStr c; AStr ")"]);
      (LevelWarn, [AStr "[app.js]"; AStr "tf.loadLayersModel failed for";
                   AStr c; AThrown e]) ].
Proof.
  unfold probe_ok, candidate_logs. intros -> ->. reflexivity.
Qed.

Lemma candidate_logs_probe_failed env load c :
  probe_ok env c = false ->
  candidate_logs env load c
  = [ (LevelLog, [AStr "[app.js]"; AStr "Probing candidate:"; AStr c]);
      (LevelLog, [AStr "[app.js]"; AStr "Fetch result for"; AStr c;
                  AInfo (probe_info_of (fetch_answer env c))]);
      (LevelWarn, [AStr "[app.js]"; AStr "Fetch failed or not OK for";
                   AStr c; AInfo (probe_info_of (fetch_answer env c))]) ].
Proof.
  unfold probe_ok, candidate_logs. intros ->. reflexivity.
Qed.

Lemma runtime_loader_Some env load :
  runtime_loader env = Some load ->
  exists t, tf env = Some t /\ loadLayersModel t = Some load.
Proof.
  unfold runtime_loader. destruct (tf env) as [t |]; [| discriminate].
  intros H. now exists t.
Qed.

(** C1.  Let the runtime be present with its loader.  If some candidate of
    the list both probes successfully and loads successfully, the list
    splits as [pre ++ c :: post] where [c] is the first such candidate, and
    [loadModel] returns with the model [c] loaded in the [model] slot, the
    success text shown, and the console ending with the entry that names [c]
    as the source.  The external operations of the run are those of the
    candidates of [pre] followed by the probe and the load of [c]: nothing
    of [post] is probed or loaded. *)
Theorem loadModel_first_usable_wins :
  forall (env : Env) (load : string -> Result ModelHandle)
         (candidates : list string) (st : State),
    runtime_loader env = Some load ->
    (exists c m, In c candidates /\ probe_ok env c = true /\ load c = Ok m) ->
    exists (pre : list string) (c : string) (m : ModelHandle)
           (post : list string),
      candidates = (pre ++ c :: post)%list
      /\ probe_ok env c = true /\ load c = Ok m
      /\ (forall c', In c' pre ->
            ~ (probe_ok env c' = true /\ exists m', load c' = Ok m'))
      /\ fst (loadModelFrom env candidates st) = Ok tt
      /\ model (snd (loadModelFrom env candidates st)) = Some m
      /\ loader_style_display (snd (loadModelFrom env candidates st)) = "none"
      /\ output_textContent (snd (loadModelFrom env candidates st))
         = "Model loaded. Upload an image to start."
      /\ (exists logs,
            console (snd (loadModelFrom env candidates st))
            = (console st ++ logs ++
               [(LevelLog, [AStr "[app.js]";
                            AStr "Model loaded successfully from"; AStr c;
                            AModel m])])%list)
      /\ trace (snd (loadModelFrom env candidates st))
         = (trace st ++ flat_map (candidate_events env load) pre
                     ++ [EFetch c; ELoad c; EModelWrite m])%list
      /\ (forall c', In c' pre ->
            candidate_events env load c'
            = if probe_ok env c' then [EFetch c'; ELoad c'] else [EFetch c'])
      /\ detached (snd (loadModelFrom env candidates st)) = detached st.
Proof.
  intros env load candidates st Hrt (c0 & m0 & Hin & Hok0 & Hm0).
  destruct (runtime_loader_Some env load Hrt) as (t & Htf & Hload).
  destruct (first_usable env load candidates)
    as [Hnone | (pre & c & m & post & -> & Hc & Hpre)].
  - specialize (Hnone c0 Hin).
    assert (H : usable env load c0 = Some m0) by (apply usable_Some; auto).
    congruence.
  - exists pre, c, m, post.
    unfold loadModelFrom.
    rewrite (loadModel_with_loaded env t load Htf Hload _ pre post c m st Hpre Hc).
    apply usable_Some in Hc. destruct Hc as [Hok Hm].
    cbn [fst snd model loader_style_display output_textContent console trace
         detached].
    repeat split; auto.
    + intros c' Hin' (Hok' & m' & Hm').
      assert (H : usable env load c' = Some m') by (apply usable_Some; auto).
      rewrite (Hpre c' Hin') in H. discriminate.
    + rewrite (candidate_logs_loaded env load c m Hok Hm).
      exists (start_entry :: flat_map (candidate_logs env load) pre ++
              [ (LevelLog, [AStr "[app.js]"; AStr "Probing candidate:"; AStr c]);
                (LevelLog, [AStr "[app.js]"; AStr "Fetch result for"; AStr c;
                            AInfo (probe_info_of (fetch_answer env c))]);
                (LevelLog, [AStr "[app.js]";
                            AStr "Attempting tf.loadLayersModel(";
                            AStr c; AStr ")"]) ])%list.
      cbn [app]. rewrite <- !app_assoc. reflexivity.
    + intros c' Hin'. apply usable_None_events. auto.
Qed.

(** C2.  When [tf] is undefined, or defined without a [loadLayersModel]
    function, [loadModel] returns at once: the loader is hidden, the text
    shown names the case (one text for the absent runtime, a different one
    for the missing capability), one error is logged after the opening
    entry, no external operation is issued, no probe result is recorded,
    and the [model] slot is left as it was. *)
Theorem loadModel_runtime_unavailable :
  forall (env : Env) (candidates : list string) (st : State),
    runtime_loader env = None ->
    fst (loadModelFrom env candidates st) = Ok tt
    /\ trace (snd (loadModelFrom env candidates st)) = trace st
    /\ detached (snd (loadModelFrom env candidates st)) = detached st
    /\ model (snd (loadModelFrom env candidates st)) = model st
    /\ loader_style_display (snd (loadModelFrom env candidates st)) = "none"
    /\ (exists entry,
          console (snd (loadModelFrom env candidates st))
          = (console st ++ [start_entry; entry])%list
          /\ fst entry = LevelError
          /\ fetch_results [start_entry; entry] = [])
    /\ output_textContent (snd (loadModelFrom env candidates st))
       = match tf env with
         | None => "TensorFlow.js not loaded. Check network/CSP."
         | Some _ => "Incompatible TF.js build: loadLayersModel missing."
         end
    /\ "TensorFlow.js not loaded. Check network/CSP."
       <> "Incompatible TF.js build: loadLayersModel missing.".
Proof.
  intros env candidates st Hrt. unfold loadModelFrom.
  rewrite (loadModel_with_unavailable env _ candidates st Hrt).
  cbn [fst snd model loader_style_display output_textContent console trace
       detached].
  repeat split; try discriminate.
  eexists; split; [reflexivity |].
  destruct (tf env); split; reflexivity.
Qed.

Lemma not_loaded_in_candidate_events env load c c' :
  probe_ok env c = false -> ~ In (ELoad c) (candidate_events env load c').
Proof.
  unfold candidate_events. intros Hc.
  destruct (probe_ok env c') eqn:Hc'.
  - assert (c <> c') by (intros ->; congruence).
    destruct (load c'); cbn; intros H'; repeat destruct H' as [H' | H'];
      try discriminate; try contradiction; injection H' as ->; auto.
  - cbn. intros [H | []]. discriminate.
Qed.

Lemma not_loaded_in_events env load c cs :
  probe_ok env c = false ->
  ~ In (ELoad c) (flat_map (candidate_events env load) cs).
Proof.
  intros Hc Hin. apply in_flat_map in Hin. destruct Hin as (c' & _ & Hin).
  now apply (not_loaded_in_candidate_events env load c c' Hc).
Qed.

Lemma not_loaded_in_fetches c cs : ~ In (ELoad c) (map EFetch cs).
Proof.
  intros Hin. apply in_map_iff in Hin. destruct Hin as (? & ? & _).
  discriminate.
Qed.

(** C3.  A candidate whose probe reports failure (the fetch threw, or the
    response is not [ok]) gets no load attempt.  [tryFetchInfo] hands
    [loadModel] an object whose [ok] is false; the iteration records it in
    the console twice (the result entry and the warning), issues the one
    request and goes on to the rest of the list with [lastError] unchanged,
    without any call of [tf.loadLayersModel]; and no run of [loadModel], on
    any list, ever calls [tf.loadLayersModel] on that candidate. *)
Theorem probe_failure_skips_load :
  forall (env : Env) (load : string -> Result ModelHandle) (c : string),
    probe_ok env c = false ->
    (forall st, exists info,
        fst (tryFetchInfo env c st) = Ok info /\ ok info = false)
    /\ (forall rest lastError st,
          candidates_loop env load (c :: rest) lastError st
          = candidates_loop env load rest lastError
              (extend st
                 [ (LevelLog, [AStr "[app.js]"; AStr "Probing candidate:";
                               AStr c]);
                   (LevelLog, [AStr "[app.js]"; AStr "Fetch result for";
                               AStr c;
                               AInfo (probe_info_of (fetch_answer env c))]);
                   (LevelWarn, [AStr "[app.js]";
                                AStr "Fetch failed or not OK for"; AStr c;
                                AInfo (probe_info_of (fetch_answer env c))]) ]
                 [EFetch c]))
    /\ (forall candidates st, exists events,
          trace (snd (loadModelFrom env candidates st))
          = (trace st ++ events)%list
          /\ ~ In (ELoad c) events).
Proof.
  intros env load c Hc. split; [| split].
  - intros st. rewrite tryFetchInfo_eq. eexists; split; [reflexivity | exact Hc].
  - intros rest lastError st.
    rewrite (iteration_probe_failed env load c rest lastError st Hc).
    now rewrite (candidate_logs_probe_failed env load c Hc).
  - intros candidates st. clear load.
    destruct (runtime_loader env) as [load |] eqn:Hrt.
    + destruct (runtime_loader_Some env load Hrt) as (t & Htf & Hload).
      destruct (first_usable env load candidates)
        as [Hnone | (pre & c1 & m & post & -> & Hc1 & Hpre)].
      * rewrite (loadModelFrom_failed env t load Htf Hload candidates st Hnone).
        eexists; split; [reflexivity |].
        rewrite in_app_iff. intros [H | H].
        -- now apply (not_loaded_in_events env load c candidates Hc).
        -- now apply (not_loaded_in_fetches c candidates).
      * unfold loadModelFrom.
        rewrite (loadModel_with_loaded env t load Htf Hload _ pre post c1 m st
                   Hpre Hc1).
        eexists; split; [reflexivity |].
        apply usable_Some in Hc1. destruct Hc1 as [Hok1 Hm1].
        rewrite in_app_iff. intros [H | H].
        -- now apply (not_loaded_in_events env load c pre Hc).
        -- cbn in H. destruct H as [H | [H | [H | []]]]; try discriminate.
           injection H as ->. congruence.
    + unfold loadModelFrom.
      rewrite (loadModel_with_unavailable env _ candidates st Hrt).
      exists []. cbn. rewrite app_nil_r. auto.
Qed.

(** C4.  A candidate that probes successfully and whose load throws [e] is a
    load failure: the iteration writes the result entry, the attempt entry
    and the warning ['tf.loadLayersModel failed for'] (and no
    ['Fetch failed or not OK for'] warning), issues the request and the load
    call, sets [lastError] to [e] and goes on with the rest of the list; as
    the last candidate of a list it lets the loop complete normally with
    [lastError = e], it does not end the run. *)
Theorem load_failure_continues :
  forall (env : Env) (load : string -> Result ModelHandle) (c : string)
         (e : Thrown),
    probe_ok env c = true ->
    load c = Throw e ->
    (forall rest lastError st,
        candidates_loop env load (c :: rest) lastError st
        = candidates_loop env load rest (Some e)
            (extend st
               [ (LevelLog, [AStr "[app.js]"; AStr "Probing candidate:";
                             AStr c]);
                 (LevelLog, [AStr "[app.js]"; AStr "Fetch result for"; AStr c;
                             AInfo (probe_info_of (fetch_answer env c))]);
                 (LevelLog, [AStr "[app.js]";
                             AStr "Attempting tf.loadLayersModel("; AStr c;
                             AStr ")"]);
                 (LevelWarn, [AStr "[app.js]";
                              AStr "tf.loadLayersModel failed for"; AStr c;
                              AThrown e]) ]
               [EFetch c; ELoad c]))
    /\ (forall lastError st,
          fst (candidates_loop env load [c] lastError st)
          = Ok (Normal (Some e))
          /\ model (snd (candidates_loop env load [c] lastError st))
             = model st).
Proof.
  intros env load c e Hok Hload. split.
  - intros rest lastError st.
    rewrite (iteration_load_failed env load c rest lastError st e Hok Hload).
    now rewrite (candidate_logs_load_failed env load c e Hok Hload).
  - intros lastError st.
    rewrite (iteration_load_failed env load c [] lastError st e Hok Hload).
    cbn. auto.
Qed.

(** ** Detached probes *)

Lemma detached_handlers_eq env c st :
  detached_handlers env c st
  = (Ok tt,
     extend st [(LevelLog, [AStr "[app.js]"; AStr "probe"; AStr c;
                            AInfo (probe_info_of (fetch_answer env c))])] []).
Proof.
  unfold detached_handlers, try_catch, bind. rewrite tryFetchInfo_resume_eq.
  unfold log, console_write, modify, extend. now rewrite app_nil_r.
Qed.

(** Settling one detached probe touches the console only, and what it
    writes there is at most one ['probe'] entry. *)
Lemma complete_detached_effect env i st :
  model (complete_detached env i st) = model st
  /\ loader_style_display (complete_detached env i st) = loader_style_display st
  /\ output_textContent (complete_detached env i st) = output_textContent st
  /\ trace (complete_detached env i st) = trace st
  /\ exists extra,
       console (complete_detached env i st) = (console st ++ extra)%list
       /\ Forall is_probe_log extra.
Proof.
  unfold complete_detached.
  destruct (nth_error (detached st) i) as [c |].
  - rewrite detached_handlers_eq. cbn. rewrite app_nil_r.
    repeat split; auto.
    eexists; split; [reflexivity |].
    constructor; [| constructor]. now eexists; eexists.
  - repeat split; auto. exists []. rewrite app_nil_r. auto.
Qed.

Lemma run_detached_effect env schedule st :
  model (run_detached env schedule st) = model st
  /\ loader_style_display (run_detached env schedule st)
     = loader_style_display st
  /\ output_textContent (run_detached env schedule st) = output_textContent st
  /\ trace (run_detached env schedule st) = trace st
  /\ exists extra,
       console (run_detached env schedule st) = (console st ++ extra)%list
       /\ Forall is_probe_log extra.
Proof.
  unfold run_detached. revert st.
  induction schedule as [| i schedule IH]; intros st; cbn [fold_left].
  - repeat split; auto. exists []. rewrite app_nil_r. auto.
  - destruct (IH (complete_detached env i st))
      as (Hm & Hl & Ho & Ht & extra & Hc & Hextra).
    destruct (complete_detached_effect env i st)
      as (Hm1 & Hl1 & Ho1 & Ht1 & extra1 & Hc1 & Hextra1).
    repeat split; try congruence.
    exists (extra1 ++ extra)%list. split.
    + rewrite Hc, Hc1. now rewrite app_assoc.
    + apply Forall_app. auto.
Qed.

Lemma fetch_results_probe_logs (extra : list LogEntry) :
  Forall is_probe_log extra -> fetch_results extra = [].
Proof.
  induction 1 as [| entry extra (c & info & ->) _ IH]; [reflexivity |].
  exact IH.
Qed.

Lemma fetch_results_app (l1 l2 : list LogEntry) :
  fetch_results (l1 ++ l2) = (fetch_results l1 ++ fetch_results l2)%list.
Proof. apply flat_map_app. Qed.

Lemma fetch_results_candidate_logs env load c :
  fetch_results (candidate_logs env load c)
  = [(c, probe_info_of (fetch_answer env c))].
Proof.
  unfold candidate_logs.
  destruct (ok (probe_info_of (fetch_answer env c))); [| reflexivity].
  destruct (load c); reflexivity.
Qed.

Lemma fetch_results_loop env load cs :
  fetch_results (flat_map (candidate_logs env load) cs)
  = map (fun c => (c, probe_info_of (fetch_answer env c))) cs.
Proof.
  induction cs as [| c cs IH]; [reflexivity |].
  cbn [flat_map map]. rewrite fetch_results_app, fetch_results_candidate_logs.
  now rewrite IH.
Qed.

Lemma fetched_urls_loop env load cs :
  fetched_urls (flat_map (candidate_events env load) cs) = cs.
Proof.
  induction cs as [| c cs IH]; [reflexivity |].
  cbn [flat_map]. unfold fetched_urls in *. rewrite flat_map_app, IH.
  unfold candidate_events.
  destruct (probe_ok env c); [destruct (load c) |]; reflexivity.
Qed.

Lemma unusable_of_failing env load cs :
  (forall c, In c cs -> probe_ok env c = false \/ exists e, load c = Throw e) ->
  forall c, In c cs -> usable env load c = None.
Proof.
  intros H c Hin. unfold usable.
  destruct (H c Hin) as [-> | (e & ->)]; [reflexivity |].
  now destruct (probe_ok env c).
Qed.

Lemma model_writes_app (l1 l2 : list Event) :
  model_writes (l1 ++ l2) = model_writes l1 + model_writes l2.
Proof. unfold model_writes. now rewrite filter_app, length_app. Qed.

Lemma model_writes_unusable env load cs :
  (forall c, In c cs -> usable env load c = None) ->
  model_writes (flat_map (candidate_events env load) cs) = 0.
Proof.
  induction cs as [| c cs IH]; intros Hnone; [reflexivity |].
  cbn [flat_map]. rewrite model_writes_app.
  rewrite IH by (intros c' Hin; apply Hnone; now right).
  rewrite (usable_None_events env load c) by (apply Hnone; now left).
  destruct (probe_ok env c); reflexivity.
Qed.

Lemma model_writes_fetches cs : model_writes (map EFetch cs) = 0.
Proof. induction cs as [| c cs IH]; [reflexivity | exact IH]. Qed.

(** C5.  Let the runtime be present with its loader.  If every candidate
    fails, at its probe or at its load, [loadModel] returns having left the
    [model] slot as it was, hidden the loader and shown the failure text.
    Its console output holds exactly one ['Fetch result for'] entry per
    candidate, in list order, each with that candidate's probe result, then
    the error entry carrying [lastError], the error of the last load that
    threw ([null] when no load was attempted).  The loop issued exactly one
    probe per candidate, in list order.  The detached probes of the closing
    pass, whenever they settle, add no ['Fetch result for'] entry. *)
Theorem loadModel_all_candidates_fail :
  forall (env : Env) (load : string -> Result ModelHandle)
         (candidates : list string) (st : State),
    runtime_loader env = Some load ->
    (forall c, In c candidates ->
       probe_ok env c = false \/ exists e, load c = Throw e) ->
    fst (loadModelFrom env candidates st) = Ok tt
    /\ model (snd (loadModelFrom env candidates st)) = model st
    /\ loader_style_display (snd (loadModelFrom env candidates st)) = "none"
    /\ output_textContent (snd (loadModelFrom env candidates st))
       = "Model not loaded. See console for details."
    /\ (exists logs,
          console (snd (loadModelFrom env candidates st))
          = (console st ++ logs ++
             [ (LevelError,
                [AStr "[app.js]";
                 AStr "Model load failed for all candidate paths. Last error:";
                 arg_of_lastError
                   (last (map Some (load_errors env load candidates)) None)]);
               (LevelError, [AStr "[app.js]"; AStr "Network probes summary:"])
             ])%list
          /\ fetch_results logs
             = map (fun c => (c, probe_info_of (fetch_answer env c)))
                   candidates)
    /\ (exists events,
          trace (snd (loadModelFrom env candidates st))
          = (trace st ++ events ++ map EFetch candidates)%list
          /\ fetched_urls events = candidates
          /\ model_writes events = 0)
    /\ (forall schedule, exists extra,
          console (run_detached env schedule
                     (snd (loadModelFrom env candidates st)))
          = (console (snd (loadModelFrom env candidates st)) ++ extra)%list
          /\ fetch_results extra = []).
Proof.
  intros env load candidates st Hrt Hfail.
  assert (Hdet : forall st' schedule, exists extra,
             console (run_detached env schedule st')
             = (console st' ++ extra)%list
             /\ fetch_results extra = []).
  { intros st' schedule.
    destruct (run_detached_effect env schedule st')
      as (_ & _ & _ & _ & extra & Hc & Hextra).
    exists extra. split; [exact Hc | now apply fetch_results_probe_logs]. }
  destruct (runtime_loader_Some env load Hrt) as (t & Htf & Hload).
  pose proof (unusable_of_failing env load candidates Hfail) as Hnone.
  rewrite (loadModelFrom_failed env t load Htf Hload candidates st Hnone).
  repeat (split; [reflexivity |]).
  split; [| split; [| intros schedule; apply Hdet]].
  - exists (start_entry :: flat_map (candidate_logs env load) candidates).
    split.
    + cbn [app]. unfold failure_entries. reflexivity.
    + change (start_entry :: ?l) with ([start_entry] ++ l)%list.
      rewrite fetch_results_app. apply fetch_results_loop.
  - exists (flat_map (candidate_events env load) candidates).
    split; [reflexivity | split; [apply fetched_urls_loop |]].
    now apply model_writes_unusable.
Qed.

(** C6.  In every run of [loadModel] the [model] slot is written at most
    once.  When it is not written the slot keeps its value.  When it is
    written, the write is the last event of the run (no probe and no load
    follows it), the slot holds the written handle, and no detached probe
    is started.  Detached probes, whenever they settle, neither write the
    slot nor issue any operation. *)
Theorem model_written_at_most_once :
  forall (env : Env) (candidates : list string) (st : State),
    exists events,
      trace (snd (loadModelFrom env candidates st)) = (trace st ++ events)%list
      /\ model_writes events <= 1
      /\ ((model_writes events = 0
           /\ model (snd (loadModelFrom env candidates st)) = model st)
          \/ (exists before m,
                events = (before ++ [EModelWrite m])%list
                /\ model_writes before = 0
                /\ model (snd (loadModelFrom env candidates st)) = Some m
                /\ detached (snd (loadModelFrom env candidates st))
                   = detached st))
      /\ (forall schedule,
            model (run_detached env schedule
                     (snd (loadModelFrom env candidates st)))
            = model (snd (loadModelFrom env candidates st))
            /\ trace (run_detached env schedule
                        (snd (loadModelFrom env candidates st)))
               = trace (snd (loadModelFrom env candidates st))).
Proof.
  intros env candidates st.
  assert (Hdet : forall st' schedule,
             model (run_detached env schedule st') = model st'
             /\ trace (run_detached env schedule st') = trace st').
  { intros st' schedule.
    destruct (run_detached_effect env schedule st') as (? & _ & _ & ? & _).
    auto. }
  destruct (runtime_loader env) as [load |] eqn:Hrt.
  - destruct (runtime_loader_Some env load Hrt) as (t & Htf & Hload).
    destruct (first_usable env load candidates)
      as [Hnone | (pre & c & m & post & -> & Hc & Hpre)].
    + rewrite (loadModelFrom_failed env t load Htf Hload candidates st Hnone).
      eexists; split; [reflexivity |].
      rewrite model_writes_app, model_writes_fetches,
        (model_writes_unusable env load candidates Hnone).
      split; [lia | split; [left; split; reflexivity |]].
      intros schedule; apply Hdet.
    + unfold loadModelFrom.
      rewrite (loadModel_with_loaded env t load Htf Hload _ pre post c m st
                 Hpre Hc).
      eexists; split; [reflexivity |].
      rewrite model_writes_app, (model_writes_unusable env load pre Hpre).
      split; [cbn; lia |]. split; [| intros schedule; apply Hdet].
      right.
      exists (flat_map (candidate_events env load) pre ++ [EFetch c; ELoad c])%list, m.
      repeat split.
      * now rewrite <- app_assoc.
      * now rewrite model_writes_app, (model_writes_unusable env load pre Hpre).
  - unfold loadModelFrom.
    rewrite (loadModel_with_unavailable env _ candidates st Hrt).
    exists []. split; [cbn; now rewrite app_nil_r |].
    split; [cbn; lia | split; [left; split; reflexivity |]].
    intros schedule; apply Hdet.
Qed.

(** C7.  [loadModel] and the implementation that omits the closing re-probe
    loop return the same result and leave the same [model] slot, the same
    DOM properties and the same console; the runs differ only in the
    requests the loop issues and leaves pending.  The detached probes the
    loop started, in whatever order they settle afterwards, change nothing
    but the console, where they add ['probe'] entries; they issue no further
    operation. *)
Theorem reprobe_pass_does_not_affect_outcome :
  forall (env : Env) (candidates : list string) (st : State),
    fst (loadModelFrom env candidates st)
    = fst (loadModel_omitting_reprobe env candidates st)
    /\ model (snd (loadModelFrom env candidates st))
       = model (snd (loadModel_omitting_reprobe env candidates st))
    /\ loader_style_display (snd (loadModelFrom env candidates st))
       = loader_style_display
           (snd (loadModel_omitting_reprobe env candidates st))
    /\ output_textContent (snd (loadModelFrom env candidates st))
       = output_textContent
           (snd (loadModel_omitting_reprobe env candidates st))
    /\ console (snd (loadModelFrom env candidates st))
       = console (snd (loadModel_omitting_reprobe env candidates st))
    /\ (exists reprobed,
          trace (snd (loadModelFrom env candidates st))
          = (trace (snd (loadModel_omitting_reprobe env candidates st))
             ++ map EFetch reprobed)%list
          /\ detached (snd (loadModelFrom env candidates st))
             = (detached (snd (loadModel_omitting_reprobe env candidates st))
                ++ reprobed)%list)
    /\ forall schedule,
         model (run_detached env schedule
                  (snd (loadModelFrom env candidates st)))
         = model (snd (loadModel_omitting_reprobe env candidates st))
         /\ loader_style_display
              (run_detached env schedule
                 (snd (loadModelFrom env candidates st)))
            = loader_style_display
                (snd (loadModel_omitting_reprobe env candidates st))
         /\ output_textContent
              (run_detached env schedule
                 (snd (loadModelFrom env candidates st)))
            = output_textContent
                (snd (loadModel_omitting_reprobe env candidates st))
         /\ trace (run_detached env schedule
                     (snd (loadModelFrom env candidates st)))
            = trace (snd (loadModelFrom env candidates st))
         /\ exists extra,
              console (run_detached env schedule
                         (snd (loadModelFrom env candidates st)))
              = (console (snd (loadModel_omitting_reprobe env candidates st))
                 ++ extra)%list
              /\ Forall is_probe_log extra.
Proof.
  intros env candidates st.
  assert (Hsame :
            fst (loadModelFrom env candidates st)
            = fst (loadModel_omitting_reprobe env candidates st)
            /\ model (snd (loadModelFrom env candidates st))
               = model (snd (loadModel_omitting_reprobe env candidates st))
            /\ loader_style_display (snd (loadModelFrom env candidates st))
               = loader_style_display
                   (snd (loadModel_omitting_reprobe env candidates st))
            /\ output_textContent (snd (loadModelFrom env candidates st))
               = output_textContent
                   (snd (loadModel_omitting_reprobe env candidates st))
            /\ console (snd (loadModelFrom env candidates st))
               = console (snd (loadModel_omitting_reprobe env candidates st))
            /\ (exists reprobed,
                  trace (snd (loadModelFrom env candidates st))
                  = (trace (snd (loadModel_omitting_reprobe env candidates st))
                     ++ map EFetch reprobed)%list
                  /\ detached (snd (loadModelFrom env candidates st))
                     = (detached
                          (snd (loadModel_omitting_reprobe env candidates st))
                        ++ reprobed)%list)).
  { unfold loadModelFrom, loadModel_omitting_reprobe.
    destruct (runtime_loader env) as [load |] eqn:Hrt.
    - destruct (runtime_loader_Some env load Hrt) as (t & Htf & Hload).
      destruct (first_usable env load candidates)
        as [Hnone | (pre & c & m & post & -> & Hc & Hpre)].
      + rewrite !(loadModel_with_failed env t load Htf Hload _ candidates st
                    Hnone).
        rewrite probes_summary_eq. cbn. repeat split.
        exists candidates. auto.
      + rewrite !(loadModel_with_loaded env t load Htf Hload _ pre post c m st
                    Hpre Hc).
        repeat split. exists []. cbn. now rewrite !app_nil_r.
    - rewrite !(loadModel_with_unavailable env _ candidates st Hrt).
      repeat split. exists []. cbn. now rewrite !app_nil_r. }
  destruct Hsame as (Hr & Hm & Hl & Ho & Hc & Hre).
  repeat (split; [assumption |]). intros schedule. repeat split.
  all: destruct (run_detached_effect env schedule
                   (snd (loadModelFrom env candidates st)))
    as (Hm' & Hl' & Ho' & Ht' & extra & Hc' & Hextra); try congruence.
  exists extra. split; [congruence | assumption].
Qed.

(** ** Running twice *)

Lemma candidates_loop_cong env1 env2 load1 load2 (cs : list string) :
  (forall c, In c cs -> fetch_answer env1 c = fetch_answer env2 c) ->
  (forall c, In c cs -> load1 c = load2 c) ->
  forall lastError st,
    candidates_loop env1 load1 cs lastError st
    = candidates_loop env2 load2 cs lastError st.
Proof.
  induction cs as [| c cs IH]; intros Hf Hl lastError st; [reflexivity |].
  assert (Hfc : fetch_answer env1 c = fetch_answer env2 c)
    by (apply Hf; now left).
  assert (Hlc : load1 c = load2 c) by (apply Hl; now left).
  assert (Hlogs : candidate_logs env1 load1 c = candidate_logs env2 load2 c)
    by (unfold candidate_logs; now rewrite Hfc, Hlc).
  assert (Hok : probe_ok env1 c = probe_ok env2 c)
    by (unfold probe_ok; now rewrite Hfc).
  assert (IH' : forall lastError st,
             candidates_loop env1 load1 cs lastError st
             = candidates_loop env2 load2 cs lastError st).
  { apply IH; intros c' Hin; [apply Hf | apply Hl]; now right. }
  destruct (probe_ok env1 c) eqn:Hok1.
  - destruct (load1 c) as [m | e] eqn:Hm1.
    + rewrite (iteration_loaded env1 load1 c cs lastError st m Hok1 Hm1).
      rewrite (iteration_loaded env2 load2 c cs lastError st m)
        by congruence.
      now rewrite Hlogs.
    + rewrite (iteration_load_failed env1 load1 c cs lastError st e Hok1 Hm1).
      rewrite (iteration_load_failed env2 load2 c cs lastError st e)
        by congruence.
      rewrite Hlogs. apply IH'.
  - rewrite (iteration_probe_failed env1 load1 c cs lastError st Hok1).
    rewrite (iteration_probe_failed env2 load2 c cs lastError st)
      by congruence.
    rewrite Hlogs. apply IH'.
Qed.

Lemma loadModel_with_cong env1 env2 final_pass (cs : list string) (st : State) :
  same_answers env1 env2 cs ->
  loadModel_with env1 final_pass cs st = loadModel_with env2 final_pass cs st.
Proof.
  unfold same_answers, loadModel_with. intros [Hf Ht].
  destruct (tf env1) as [t1 |], (tf env2) as [t2 |];
    try contradiction; [| reflexivity].
  destruct (loadLayersModel t1) as [load1 |],
           (loadLayersModel t2) as [load2 |];
    try contradiction; [| reflexivity].
  run_script.
  now rewrite (candidates_loop_cong env1 env2 load1 load2 cs Hf Ht).
Qed.

Lemma candidate_events_head env load c :
  exists more, candidate_events env load c = EFetch c :: more.
Proof.
  unfold candidate_events.
  destruct (probe_ok env c); [destruct (load c) |]; eexists; reflexivity.
Qed.

(** C8.  Run [loadModel] on a candidate list, and run it again from the
    state the first run left, in an environment that answers the listed
    locations as the first did.  The second run returns the same result and
    leaves the same [model] slot and the same DOM properties; it writes the
    same console entries and performs the same external operations again
    (so the same candidate is selected, and nothing was remembered from the
    first run: with the runtime ready, the second run starts, like the
    first, by probing the first candidate). *)
Theorem loadModel_rerun_same_outcome :
  forall (env1 env2 : Env) (candidates : list string) (st : State),
    same_answers env1 env2 candidates ->
    fst (loadModelFrom env2 candidates (snd (loadModelFrom env1 candidates st)))
    = fst (loadModelFrom env1 candidates st)
    /\ model (snd (loadModelFrom env2 candidates
                     (snd (loadModelFrom env1 candidates st))))
       = model (snd (loadModelFrom env1 candidates st))
    /\ loader_style_display
         (snd (loadModelFrom env2 candidates
                 (snd (loadModelFrom env1 candidates st))))
       = loader_style_display (snd (loadModelFrom env1 candidates st))
    /\ output_textContent
         (snd (loadModelFrom env2 candidates
                 (snd (loadModelFrom env1 candidates st))))
       = output_textContent (snd (loadModelFrom env1 candidates st))
    /\ exists logs events started,
         console (snd (loadModelFrom env1 candidates st))
         = (console st ++ logs)%list
         /\ console (snd (loadModelFrom env2 candidates
                            (snd (loadModelFrom env1 candidates st))))
            = (console (snd (loadModelFrom env1 candidates st)) ++ logs)%list
         /\ trace (snd (loadModelFrom env1 candidates st))
            = (trace st ++ events)%list
         /\ trace (snd (loadModelFrom env2 candidates
                          (snd (loadModelFrom env1 candidates st))))
            = (trace (snd (loadModelFrom env1 candidates st)) ++ events)%list
         /\ detached (snd (loadModelFrom env1 candidates st))
            = (detached st ++ started)%list
         /\ detached (snd (loadModelFrom env2 candidates
                             (snd (loadModelFrom env1 candidates st))))
            = (detached (snd (loadModelFrom env1 candidates st))
               ++ started)%list
         /\ (forall c rest,
               runtime_loader env1 <> None ->
               candidates = c :: rest ->
               exists more, events = EFetch c :: more).
Proof.
  intros env1 env2 candidates st Hsame.
  assert (Heq : forall st', loadModelFrom env2 candidates st'
                            = loadModelFrom env1 candidates st').
  { intros st'. symmetry. now apply loadModel_with_cong. }
  rewrite !Heq. clear env2 Hsame Heq.
  destruct (runtime_loader env1) as [load |] eqn:Hrt.
  - destruct (runtime_loader_Some env1 load Hrt) as (t & Htf & Hload).
    destruct (first_usable env1 load candidates)
      as [Hnone | (pre & c & m & post & Hsplit & Hc & Hpre)].
    + rewrite !(loadModelFrom_failed env1 t load Htf Hload candidates _ Hnone).
      cbn [fst snd model loader_style_display output_textContent console
           trace detached].
      repeat split.
      do 3 eexists. repeat split.
      intros c rest _ ->. cbn [flat_map].
      destruct (candidate_events_head env1 load c) as (more & ->).
      eexists. cbn [app]. reflexivity.
    + unfold loadModelFrom. subst candidates.
      rewrite !(loadModel_with_loaded env1 t load Htf Hload _ pre post c m _
                  Hpre Hc).
      cbn [fst snd model loader_style_display output_textContent console
           trace detached].
      repeat split.
      exists (start_entry :: flat_map (candidate_logs env1 load) pre
                ++ candidate_logs env1 load c)%list,
             (flat_map (candidate_events env1 load) pre
                ++ [EFetch c; ELoad c; EModelWrite m])%list,
             [].
      rewrite !app_nil_r. repeat split.
      intros c0 rest _ Heq. destruct pre as [| c1 pre].
      * cbn in Heq. injection Heq as -> _. eexists. reflexivity.
      * cbn in Heq. injection Heq as -> _. cbn [flat_map].
        destruct (candidate_events_head env1 load c0) as (more & ->).
        eexists. cbn [app]. reflexivity.
  - unfold loadModelFrom.
    rewrite !(loadModel_with_unavailable env1 _ candidates _ Hrt).
    cbn [fst snd model loader_style_display output_textContent console
         trace detached].
    repeat split.
    eexists. exists [], [].
    split; [reflexivity |]. split; [reflexivity |].
    rewrite !app_nil_r. repeat split.
    intros c rest Hne. congruence.
Qed.

(** ** The properties at the sample host *)

(** On the sample host the script's own list is settled by its third entry:
    the first cannot be fetched, the second is fetched and fails to load. *)
Example loadModel_sample_host :
  loadModel sample_env initial_state
  = (Ok tt,
     mkState (Some (LayersModel "model.json")) "none"
       "Model loaded. Upload an image to start."
       (start_entry
          :: candidate_logs sample_env sample_load "./model.json"
          ++ candidate_logs sample_env sample_load "/model.json"
          ++ candidate_logs sample_env sample_load "model.json")
       [ EFetch "./model.json";
         EFetch "/model.json"; ELoad "/model.json";
         EFetch "model.json"; ELoad "model.json";
         EModelWrite (LayersModel "model.json") ]
       []).
Proof. vm_compute. reflexivity. Qed.

(** A single candidate that answers and is not a manifest: the run fails
    with the parse error as [lastError] and one probe result recorded. *)
Example loadModel_single_bad_manifest :
  let st := snd (loadModelFrom sample_env ["/model.json"] initial_state) in
  model st = None
  /\ output_textContent st = "Model not loaded. See console for details."
  /\ fetch_results (console st)
     = [("/model.json", probe_info_of (Ok index_html))]
  /\ In (LevelError,
         [AStr "[app.js]";
          AStr "Model load failed for all candidate paths. Last error:";
          AThrown (mkThrown "SyntaxError" "Unexpected token < in JSON")])
        (console st)
  /\ detached st = ["/model.json"].
Proof. vm_compute. repeat split. right; right; right; right; right; now left. Qed.

(** The two ways the runtime can be unavailable show different texts and
    issue no request. *)
Example loadModel_sample_host_without_runtime :
  output_textContent (snd (loadModel sample_env_no_tf initial_state))
  = "TensorFlow.js not loaded. Check network/CSP."
  /\ output_textContent (snd (loadModel sample_env_no_layers initial_state))
     = "Incompatible TF.js build: loadLayersModel missing."
  /\ trace (snd (loadModel sample_env_no_tf initial_state)) = []
  /\ trace (snd (loadModel sample_env_no_layers initial_state)) = [].
Proof. vm_compute. repeat split. Qed.

Lemma sample_candidate_usable :
  exists c m, In c MODEL_CANDIDATES
              /\ probe_ok sample_env c = true /\ sample_load c = Ok m.
Proof.
  exists "model.json", (LayersModel "model.json").
  split; [| split; reflexivity]. right; right; left; reflexivity.
Defined.

Lemma loadModel_first_usable_wins_witness :
  runtime_loader sample_env = Some sample_load
  /\ (exists c m, In c MODEL_CANDIDATES
                  /\ probe_ok sample_env c = true /\ sample_load c = Ok m)
  /\ exists (pre : list string) (c : string) (m : ModelHandle)
            (post : list string),
       MODEL_CANDIDATES = (pre ++ c :: post)%list
       /\ probe_ok sample_env c = true /\ sample_load c = Ok m
       /\ (forall c', In c' pre ->
             ~ (probe_ok sample_env c' = true
                /\ exists m', sample_load c' = Ok m'))
       /\ fst (loadModel sample_env initial_state) = Ok tt
       /\ model (snd (loadModel sample_env initial_state)) = Some m
       /\ loader_style_display (snd (loadModel sample_env initial_state))
          = "none"
       /\ output_textContent (snd (loadModel sample_env initial_state))
          = "Model loaded. Upload an image to start."
       /\ (exists logs,
             console (snd (loadModel sample_env initial_state))
             = (console initial_state ++ logs ++
                [(LevelLog, [AStr "[app.js]";
                             AStr "Model loaded successfully from"; AStr c;
                             AModel m])])%list)
       /\ trace (snd (loadModel sample_env initial_state))
          = (trace initial_state
             ++ flat_map (candidate_events sample_env sample_load) pre
             ++ [EFetch c; ELoad c; EModelWrite m])%list
       /\ (forall c', In c' pre ->
             candidate_events sample_env sample_load c'
             = if probe_ok sample_env c' then [EFetch c'; ELoad c']
               else [EFetch c'])
       /\ detached (snd (loadModel sample_env initial_state))
          = detached initial_state.
Proof.
  split; [reflexivity |]. split; [exact sample_candidate_usable |].
  apply (loadModel_first_usable_wins sample_env sample_load MODEL_CANDIDATES
           initial_state).
  - reflexivity.
  - exact sample_candidate_usable.
Defined.

Lemma loadModel_runtime_unavailable_witness :
  runtime_loader sample_env_no_layers = None
  /\ fst (loadModel sample_env_no_layers initial_state) = Ok tt
  /\ trace (snd (loadModel sample_env_no_layers initial_state))
     = trace initial_state
  /\ detached (snd (loadModel sample_env_no_layers initial_state))
     = detached initial_state
  /\ model (snd (loadModel sample_env_no_layers initial_state))
     = model initial_state
  /\ loader_style_display (snd (loadModel sample_env_no_layers initial_state))
     = "none"
  /\ (exists entry,
        console (snd (loadModel sample_env_no_layers initial_state))
        = (console initial_state ++ [start_entry; entry])%list
        /\ fst entry = LevelError
        /\ fetch_results [start_entry; entry] = [])
  /\ output_textContent (snd (loadModel sample_env_no_layers initial_state))
     = match tf sample_env_no_layers with
       | None => "TensorFlow.js not loaded. Check network/CSP."
       | Some _ => "Incompatible TF.js build: loadLayersModel missing."
       end
  /\ "TensorFlow.js not loaded. Check network/CSP."
     <> "Incompatible TF.js build: loadLayersModel missing.".
Proof.
  split; [reflexivity |].
  apply (loadModel_runtime_unavailable sample_env_no_layers MODEL_CANDIDATES
           initial_state).
  reflexivity.
Defined.

Lemma probe_failure_skips_load_witness :
  probe_ok sample_env "./model.json" = false
  /\ (forall st, exists info,
         fst (tryFetchInfo sample_env "./model.json" st) = Ok info
         /\ ok info = false)
  /\ (forall rest lastError st,
        candidates_loop sample_env sample_load ("./model.json" :: rest)
          lastError st
        = candidates_loop sample_env sample_load rest lastError
            (extend st
               [ (LevelLog, [AStr "[app.js]"; AStr "Probing candidate:";
                             AStr "./model.json"]);
                 (LevelLog, [AStr "[app.js]"; AStr "Fetch result for";
                             AStr "./model.json";
                             AInfo (probe_info_of
                                      (fetch_answer sample_env "./model.json"))]);
                 (LevelWarn, [AStr "[app.js]";
                              AStr "Fetch failed or not OK for";
                              AStr "./model.json";
                              AInfo (probe_info_of
                                       (fetch_answer sample_env "./model.json"))]) ]
               [EFetch "./model.json"]))
  /\ (forall candidates st, exists events,
        trace (snd (loadModelFrom sample_env candidates st))
        = (trace st ++ events)%list
        /\ ~ In (ELoad "./model.json") events).
Proof.
  split; [reflexivity |].
  apply (probe_failure_skips_load sample_env sample_load "./model.json").
  reflexivity.
Defined.

Lemma load_failure_continues_witness :
  probe_ok sample_env "/model.json" = true
  /\ sample_load "/model.json"
     = Throw (mkThrown "SyntaxError" "Unexpected token < in JSON")
  /\ (forall rest lastError st,
        candidates_loop sample_env sample_load ("/model.json" :: rest)
          lastError st
        = candidates_loop sample_env sample_load rest
            (Some (mkThrown "SyntaxError" "Unexpected token < in JSON"))
            (extend st
               [ (LevelLog, [AStr "[app.js]"; AStr "Probing candidate:";
                             AStr "/model.json"]);
                 (LevelLog, [AStr "[app.js]"; AStr "Fetch result for";
                             AStr "/model.json";
                             AInfo (probe_info_of
                                      (fetch_answer sample_env "/model.json"))]);
                 (LevelLog, [AStr "[app.js]";
                             AStr "Attempting tf.loadLayersModel(";
                             AStr "/model.json"; AStr ")"]);
                 (LevelWarn, [AStr "[app.js]";
                              AStr "tf.loadLayersModel failed for";
                              AStr "/model.json";
                              AThrown (mkThrown "SyntaxError"
                                         "Unexpected token < in JSON")]) ]
               [EFetch "/model.json"; ELoad "/model.json"]))
  /\ (forall lastError st,
        fst (candidates_loop sample_env sample_load ["/model.json"]
               lastError st)
        = Ok (Normal (Some (mkThrown "SyntaxError"
                              "Unexpected token < in JSON")))
        /\ model (snd (candidates_loop sample_env sample_load ["/model.json"]
                         lastError st))
           = model st).
Proof.
  split; [reflexivity |]. split; [reflexivity |].
  apply (load_failure_continues sample_env sample_load "/model.json"
           (mkThrown "SyntaxError" "Unexpected token < in JSON"));
    reflexivity.
Defined.

(** Three locations of the sample host, none of which yields a model. *)
Lemma sample_failing_candidates :
  forall c, In c ["./model.json"; "/model.json"; "./models/model.json"] ->
    probe_ok sample_env c = false \/ exists e, sample_load c = Throw e.
Proof.
  intros c [<- | [<- | [<- | []]]].
  - left; reflexivity.
  - right; eexists; reflexivity.
  - left; reflexivity.
Defined.

Lemma loadModel_all_candidates_fail_witness :
  runtime_loader sample_env = Some sample_load
  /\ (forall c, In c ["./model.json"; "/model.json"; "./models/model.json"] ->
        probe_ok sample_env c = false \/ exists e, sample_load c = Throw e)
  /\ fst (loadModelFrom sample_env
            ["./model.json"; "/model.json"; "./models/model.json"]
            initial_state) = Ok tt
  /\ model (snd (loadModelFrom sample_env
                   ["./model.json"; "/model.json"; "./models/model.json"]
                   initial_state))
     = model initial_state
  /\ loader_style_display
       (snd (loadModelFrom sample_env
               ["./model.json"; "/model.json"; "./models/model.json"]
               initial_state))
     = "none"
  /\ output_textContent
       (snd (loadModelFrom sample_env
               ["./model.json"; "/model.json"; "./models/model.json"]
               initial_state))
     = "Model not loaded. See console for details."
  /\ (exists logs,
        console (snd (loadModelFrom sample_env
                        ["./model.json"; "/model.json"; "./models/model.json"]
                        initial_state))
        = (console initial_state ++ logs ++
           [ (LevelError,
              [AStr "[app.js]";
               AStr "Model load failed for all candidate paths. Last error:";
               arg_of_lastError
                 (last (map Some
                          (load_errors sample_env sample_load
                             ["./model.json"; "/model.json";
                              "./models/model.json"]))
                       None)]);
             (LevelError, [AStr "[app.js]"; AStr "Network probes summary:"])
           ])%list
        /\ fetch_results logs
           = map (fun c => (c, probe_info_of (fetch_answer sample_env c)))
                 ["./model.json"; "/model.json"; "./models/model.json"])
  /\ (exists events,
        trace (snd (loadModelFrom sample_env
                      ["./model.json"; "/model.json"; "./models/model.json"]
                      initial_state))
        = (trace initial_state ++ events
           ++ map EFetch
                ["./model.json"; "/model.json"; "./models/model.json"])%list
        /\ fetched_urls events
           = ["./model.json"; "/model.json"; "./models/model.json"]
        /\ model_writes events = 0)
  /\ (forall schedule, exists extra,
        console (run_detached sample_env schedule
                   (snd (loadModelFrom sample_env
                           ["./model.json"; "/model.json";
                            "./models/model.json"]
                           initial_state)))
        = (console (snd (loadModelFrom sample_env
                           ["./model.json"; "/model.json";
                            "./models/model.json"]
                           initial_state))
           ++ extra)%list
        /\ fetch_results extra = []).
Proof.
  split; [reflexivity |]. split; [exact sample_failing_candidates |].
  apply (loadModel_all_candidates_fail sample_env sample_load
           ["./model.json"; "/model.json"; "./models/model.json"]
           initial_state).
  - reflexivity.
  - exact sample_failing_candidates.
Defined.

Lemma sample_env_later_same_answers :
  same_answers sample_env sample_env_later MODEL_CANDIDATES.
Proof.
  split.
  - intros c [<- | [<- | [<- | [<- | [<- | [<- | [<- | []]]]]]]];
      reflexivity.
  - intros c _. reflexivity.
Defined.

Lemma loadModel_rerun_same_outcome_witness :
  same_answers sample_env sample_env_later MODEL_CANDIDATES
  /\ fst (loadModel sample_env_later (snd (loadModel sample_env initial_state)))
     = fst (loadModel sample_env initial_state)
  /\ model (snd (loadModel sample_env_later
                   (snd (loadModel sample_env initial_state))))
     = model (snd (loadModel sample_env initial_state))
  /\ loader_style_display
       (snd (loadModel sample_env_later
               (snd (loadModel sample_env initial_state))))
     = loader_style_display (snd (loadModel sample_env initial_state))
  /\ output_textContent
       (snd (loadModel sample_env_later
               (snd (loadModel sample_env initial_state))))
     = output_textContent (snd (loadModel sample_env initial_state))
  /\ exists logs events started,
       console (snd (loadModel sample_env initial_state))
       = (console initial_state ++ logs)%list
       /\ console (snd (loadModel sample_env_later
                          (snd (loadModel sample_env initial_state))))
          = (console (snd (loadModel sample_env initial_state)) ++ logs)%list
       /\ trace (snd (loadModel sample_env initial_state))
          = (trace initial_state ++ events)%list
       /\ trace (snd (loadModel sample_env_later
                        (snd (loadModel sample_env initial_state))))
          = (trace (snd (loadModel sample_env initial_state)) ++ events)%list
       /\ detached (snd (loadModel sample_env initial_state))
          = (detached initial_state ++ started)%list
       /\ detached (snd (loadModel sample_env_later
                           (snd (loadModel sample_env initial_state))))
          = (detached (snd (loadModel sample_env initial_state))
             ++ started)%list
       /\ (forall c rest,
             runtime_loader sample_env <> None ->
             MODEL_CANDIDATES = c :: rest ->
             exists more, events = EFetch c :: more).
Proof.
  split; [exact sample_env_later_same_answers |].
  apply (loadModel_rerun_same_outcome sample_env sample_env_later
           MODEL_CANDIDATES initial_state).
  exact sample_env_later_same_answers.
Defined.

Lemma tryFetchInfo_fulfilled_records_witness :
  fetch_answer sample_env "/model.json" = Ok index_html
  /\ exists preview,
       fst (tryFetchInfo sample_env "/model.json" initial_state)
       = Ok (ProbeInfo (res_ok index_html) (res_status index_html)
               (res_url index_html)
               (res_headers_get index_html "access-control-allow-origin")
               preview)
       /\ String.length preview <= 1000
       /\ match res_clone_text index_html with
          | Ok txt =>
            preview = slice txt 0 1000
            /\ prefix preview txt = true
            /\ String.length preview = Nat.min 1000 (String.length txt)
            /\ (String.length txt <= 1000 -> preview = txt)
          | Throw _ => preview = "(preview not available)"
          end.
Proof.
  split; [reflexivity |].
  apply (tryFetchInfo_fulfilled_records sample_env "/model.json" initial_state
           index_html).
  reflexivity.
Defined.

(** ** Further properties of the loader *)

(** X1.  The candidate loop composes over concatenation: the loop over
    [cs ++ more] is the loop over [cs] and, when that completes normally,
    the loop over [more] from the state and the [lastError] it left; when
    the loop over [cs] returns, [more] is not touched. *)
Theorem candidates_loop_app :
  forall (env : Env) (load : string -> Result ModelHandle)
         (cs more : list string) (lastError : option Thrown) (st : State),
    candidates_loop env load (cs ++ more) lastError st
    = match candidates_loop env load cs lastError st with
      | (Ok (Normal lastError'), st') =>
        candidates_loop env load more lastError' st'
      | (Ok Return, st') => (Ok Return, st')
      | (Throw e, st') => (Throw e, st')
      end.
Proof.
  intros env load cs more. induction cs as [| c cs IH]; intros lastError st.
  - reflexivity.
  - cbn [app]. destruct (probe_ok env c) eqn:Hok.
    + destruct (load c) as [m | e] eqn:Hm.
      * now rewrite !(iteration_loaded env load c _ lastError st m Hok Hm).
      * rewrite !(iteration_load_failed env load c _ lastError st e Hok Hm).
        apply IH.
    + rewrite !(iteration_probe_failed env load c _ lastError st Hok).
      apply IH.
Qed.

Lemma first_model_unusable env load cs :
  (forall c, In c cs -> usable env load c = None) ->
  first_model env load cs = None.
Proof.
  induction cs as [| c cs IH]; intros H; [reflexivity |].
  cbn. rewrite (H c) by now left. apply IH. intros c' Hin. apply H. now right.
Qed.

Lemma first_model_split env load (pre : list string) c m post :
  (forall c', In c' pre -> usable env load c' = None) ->
  usable env load c = Some m ->
  first_model env load (pre ++ c :: post) = Some m.
Proof.
  induction pre as [| a pre IH]; intros Hpre Hc; cbn.
  - now rewrite Hc.
  - rewrite (Hpre a) by now left. apply IH; auto.
    intros c' Hin. apply Hpre. now right.
Qed.

(** What a run leaves in the slot and in the two DOM properties, read off
    the first usable candidate. *)
Lemma loadModel_with_observable env load final_pass (cs : list string) st :
  runtime_loader env = Some load ->
  (forall cs' st', fst (final_pass cs' st') = Ok tt
                   /\ model (snd (final_pass cs' st')) = model st'
                   /\ loader_style_display (snd (final_pass cs' st'))
                      = loader_style_display st'
                   /\ output_textContent (snd (final_pass cs' st'))
                      = output_textContent st') ->
  fst (loadModel_with env final_pass cs st) = Ok tt
  /\ loader_style_display (snd (loadModel_with env final_pass cs st)) = "none"
  /\ match first_model env load cs with
     | Some m =>
       model (snd (loadModel_with env final_pass cs st)) = Some m
       /\ output_textContent (snd (loadModel_with env final_pass cs st))
          = "Model loaded. Upload an image to start."
     | None =>
       model (snd (loadModel_with env final_pass cs st)) = model st
       /\ output_textContent (snd (loadModel_with env final_pass cs st))
          = "Model not loaded. See console for details."
     end.
Proof.
  intros Hrt Hfinal.
  destruct (runtime_loader_Some env load Hrt) as (t & Htf & Hload).
  destruct (first_usable env load cs)
    as [Hnone | (pre & c & m & post & -> & Hc & Hpre)].
  - rewrite (first_model_unusable env load cs Hnone).
    rewrite (loadModel_with_failed env t load Htf Hload final_pass cs st Hnone).
    match goal with
    | |- context [final_pass cs ?s] =>
      destruct (Hfinal cs s) as (H1 & H2 & H3 & H4)
    end.
    rewrite H1, H2, H3, H4. cbn. auto.
  - rewrite (first_model_split env load pre c m post Hpre Hc).
    rewrite (loadModel_with_loaded env t load Htf Hload final_pass pre post c
               m st Hpre Hc).
    cbn. auto.
Qed.

Lemma probes_summary_observable (cs : list string) (st : State) :
  fst (probes_summary cs st) = Ok tt
  /\ model (snd (probes_summary cs st)) = model st
  /\ loader_style_display (snd (probes_summary cs st))
     = loader_style_display st
  /\ output_textContent (snd (probes_summary cs st)) = output_textContent st.
Proof. rewrite probes_summary_eq. cbn. auto. Qed.









(** X4.  Candidates added after a usable one change nothing: when some
    candidate of the list probes and loads, the run over the list followed
    by any further candidates is the run over the list, state for state. *)
Theorem loadModel_later_candidates_unused :
  forall (env : Env) (load : string -> Result ModelHandle)
         (candidates more : list string) (st : State),
    runtime_loader env = Some load ->
    (exists c m, In c candidates /\ usable env load c = Some m) ->
    loadModelFrom env (candidates ++ more) st = loadModelFrom env candidates st.
Proof.
  intros env load candidates more st Hrt (c0 & m0 & Hin & Hc0).
  destruct (runtime_loader_Some env load Hrt) as (t & Htf & Hload).
  destruct (first_usable env load candidates)
    as [Hnone | (pre & c & m & post & -> & Hc & Hpre)].
  - rewrite (Hnone c0 Hin) in Hc0. discriminate.
  - unfold loadModelFrom. rewrite <- app_assoc. cbn [app].
    now rewrite !(loadModel_with_loaded env t load Htf Hload _ pre _ c m st
                    Hpre Hc).
Qed.

Lemma first_model_drop_unusable env load (l : list string) c post :
  usable env load c = None ->
  first_model env load (l ++ c :: post) = first_model env load (l ++ post).
Proof.
  intros Hc. induction l as [| a l IH]; cbn.
  - now rewrite Hc.
  - destruct (usable env load a); [reflexivity | exact IH].
Qed.

Lemma first_model_drop_repeat env load (pre : list string) c post :
  In c pre ->
  first_model env load (pre ++ c :: post) = first_model env load (pre ++ post).
Proof.
  induction pre as [| a pre IH]; intros Hin; [destruct Hin |].
  cbn. destruct (usable env load a) as [m |] eqn:Ha; [reflexivity |].
  destruct Hin as [-> | Hin].
  - now apply first_model_drop_unusable.
  - now apply IH.
Qed.

(** X5.  A candidate listed again later is harmless: removing a repetition
    of a location that already occurs earlier in the list changes neither
    the result of the run nor what it leaves in the slot and in the two DOM
    properties. *)
Theorem loadModel_repeated_candidate :
  forall (env : Env) (pre post : list string) (c : string) (st : State),
    In c pre ->
    fst (loadModelFrom env (pre ++ c :: post) st)
    = fst (loadModelFrom env (pre ++ post) st)
    /\ model (snd (loadModelFrom env (pre ++ c :: post) st))
       = model (snd (loadModelFrom env (pre ++ post) st))
    /\ loader_style_display (snd (loadModelFrom env (pre ++ c :: post) st))
       = loader_style_display (snd (loadModelFrom env (pre ++ post) st))
    /\ output_textContent (snd (loadModelFrom env (pre ++ c :: post) st))
       = output_textContent (snd (loadModelFrom env (pre ++ post) st)).
Proof.
  intros env pre post c st Hin. unfold loadModelFrom.
  destruct (runtime_loader env) as [load |] eqn:Hrt.
  - destruct (loadModel_with_observable env load probes_summary
                (pre ++ c :: post) st Hrt probes_summary_observable)
      as (Hr1 & Hl1 & Hm1).
    destruct (loadModel_with_observable env load probes_summary
                (pre ++ post) st Hrt probes_summary_observable)
      as (Hr2 & Hl2 & Hm2).
    rewrite (first_model_drop_repeat env load pre c post Hin) in Hm1.
    destruct (first_model env load (pre ++ post));
      destruct Hm1 as [? ?], Hm2 as [? ?]; repeat split; congruence.
  - now rewrite !(loadModel_with_unavailable env _ _ st Hrt).
Qed.

Lemma candidate_logs_tagged env load c :
  Forall is_tagged (candidate_logs env load c).
Proof.
  unfold candidate_logs.
  destruct (ok (probe_info_of (fetch_answer env c)));
    [destruct (load c) |];
    repeat constructor; eexists; reflexivity.
Qed.

Lemma loop_logs_tagged env load cs :
  Forall is_tagged (flat_map (candidate_logs env load) cs).
Proof.
  induction cs as [| c cs IH]; [constructor |].
  cbn [flat_map]. apply Forall_app. split; [apply candidate_logs_tagged | exact IH].
Qed.

Lemma probe_logs_tagged (extra : list LogEntry) :
  Forall is_probe_log extra -> Forall is_tagged extra.
Proof.
  induction 1 as [| entry extra (c & info & ->) _ IH]; constructor; auto.
  eexists; reflexivity.
Qed.

(** X6.  Everything the loader writes to the console goes through [log],
    [warn] or [error]: every entry written by a run of [loadModel], and by
    its detached probes whenever they settle, starts with the ['[app.js]']
    tag. *)
Theorem loadModel_console_tagged :
  forall (env : Env) (candidates : list string) (st : State)
         (schedule : list nat),
    exists logs,
      console (run_detached env schedule
                 (snd (loadModelFrom env candidates st)))
      = (console st ++ logs)%list
      /\ Forall is_tagged logs.
Proof.
  intros env candidates st schedule.
  destruct (run_detached_effect env schedule
              (snd (loadModelFrom env candidates st)))
    as (_ & _ & _ & _ & extra & -> & Hextra).
  apply probe_logs_tagged in Hextra.
  assert (Hstart : is_tagged start_entry) by (eexists; reflexivity).
  destruct (runtime_loader env) as [load |] eqn:Hrt.
  - destruct (runtime_loader_Some env load Hrt) as (t & Htf & Hload).
    destruct (first_usable env load candidates)
      as [Hnone | (pre & c & m & post & -> & Hc & Hpre)].
    + rewrite (loadModelFrom_failed env t load Htf Hload candidates st Hnone).
      cbn [snd console]. rewrite <- app_assoc.
      eexists; split; [reflexivity |].
      apply Forall_app; split; [| exact Hextra].
      constructor; [exact Hstart |].
      apply Forall_app; split; [apply loop_logs_tagged |].
      repeat constructor; eexists; reflexivity.
    + unfold loadModelFrom.
      rewrite (loadModel_with_loaded env t load Htf Hload _ pre post c m st
                 Hpre Hc).
      cbn [snd console]. rewrite <- app_assoc.
      eexists; split; [reflexivity |].
      apply Forall_app; split; [| exact Hextra].
      constructor; [exact Hstart |].
      apply Forall_app; split;
        [apply loop_logs_tagged | apply candidate_logs_tagged].
  - unfold loadModelFrom.
    rewrite (loadModel_with_unavailable env _ candidates st Hrt).
    cbn [snd console]. rewrite <- app_assoc.
    eexists; split; [reflexivity |].
    apply Forall_app; split; [| exact Hextra].
    destruct (tf env); repeat constructor; eexists; reflexivity.
Qed.

(** ** The single-path loader *)

Lemma static_loadModel_loaded env load m st :
  runtime_loader env = Some load -> load "./model.json" = Ok m ->
  StaticApp.loadModel env st
  = (Ok tt,
     mkState (Some m) "none" "Model loaded. Upload an image to start."
       (console st)
       (trace st ++ [ELoad "./model.json"; EModelWrite m]) (detached st)).
Proof.
  intros Hrt Hm.
  destruct (runtime_loader_Some env load Hrt) as (t & Htf & Hload).
  unfold StaticApp.loadModel, StaticApp.tf_loadLayersModel_call,
    tf_loadLayersModel.
  rewrite Htf, Hload, Hm. run_script. now rewrite <- !app_assoc.
Qed.

Lemma static_loadModel_failed env st :
  (forall load m, runtime_loader env = Some load ->
                  load "./model.json" <> Ok m) ->
  exists e events,
    StaticApp.loadModel env st
    = (Ok tt,
       mkState (model st) "none"
         "Error loading model. Ensure model.json and weights are hosted and accessible via HTTP(S)."
         (console st ++
          [(LevelError, [AStr "Model load error:"; AThrown e])])
         (trace st ++ events) (detached st))
    /\ match runtime_loader env with
       | Some load => load "./model.json" = Throw e
                      /\ events = [ELoad "./model.json"]
       | None =>
         events = []
         /\ e = match tf env with
                | None => mkThrown "ReferenceError" "tf is not defined"
                | Some _ =>
                  mkThrown "TypeError" "tf.loadLayersModel is not a function"
                end
       end.
Proof.
  intros Hfail.
  unfold StaticApp.loadModel, StaticApp.tf_loadLayersModel_call,
    tf_loadLayersModel, StaticApp.console_error, runtime_loader in *.
  destruct (tf env) as [t |].
  - destruct (loadLayersModel t) as [load |].
    + destruct (load "./model.json") as [m | e] eqn:Hm.
      * exfalso. now apply (Hfail load m).
      * exists e, [ELoad "./model.json"]. run_script. auto.
    + eexists; exists []. run_script. rewrite app_nil_r. auto.
  - eexists; exists []. run_script. rewrite app_nil_r. auto.
Qed.

(** X7.  The single-path [loadModel] never throws, not even when [tf] is
    not defined or has no [loadLayersModel]: the reference or type error is
    caught like a failed load.  It hides the loader, never fetches, and
    calls the runtime at most once, on ['./model.json'].  The slot is
    written exactly when that load succeeds; in every other case the slot
    keeps its value, the one error text is shown and the error is reported
    through [console.error]. *)
Theorem static_loadModel_settles :
  forall (env : Env) (st : State),
    fst (StaticApp.loadModel env st) = Ok tt
    /\ loader_style_display (snd (StaticApp.loadModel env st)) = "none"
    /\ (exists events,
          trace (snd (StaticApp.loadModel env st)) = (trace st ++ events)%list
          /\ fetched_urls events = []
          /\ incl (loaded_urls events) ["./model.json"]
          /\ List.length (loaded_urls events) <= 1)
    /\ match runtime_loader env with
       | Some load =>
         match load "./model.json" with
         | Ok m =>
           model (snd (StaticApp.loadModel env st)) = Some m
           /\ output_textContent (snd (StaticApp.loadModel env st))
              = "Model loaded. Upload an image to start."
           /\ console (snd (StaticApp.loadModel env st)) = console st
         | Throw e =>
           model (snd (StaticApp.loadModel env st)) = model st
           /\ output_textContent (snd (StaticApp.loadModel env st))
              = "Error loading model. Ensure model.json and weights are hosted and accessible via HTTP(S)."
           /\ console (snd (StaticApp.loadModel env st))
              = (console st ++
                 [(LevelError, [AStr "Model load error:"; AThrown e])])%list
         end
       | None =>
         model (snd (StaticApp.loadModel env st)) = model st
         /\ output_textContent (snd (StaticApp.loadModel env st))
            = "Error loading model. Ensure model.json and weights are hosted and accessible via HTTP(S)."
         /\ exists e,
              console (snd (StaticApp.loadModel env st))
              = (console st ++
                 [(LevelError, [AStr "Model load error:"; AThrown e])])%list
              /\ thrown_name e = match tf env with
                                 | None => "ReferenceError"
                                 | Some _ => "TypeError"
                                 end
       end.
Proof.
  intros env st.
  destruct (runtime_loader env) as [load |] eqn:Hrt.
  - destruct (load "./model.json") as [m | e] eqn:Hm.
    + rewrite (static_loadModel_loaded env load m st Hrt Hm). cbn.
      repeat split. eexists; split; [reflexivity |].
      repeat split; cbn; auto.
      intros x [<- | []]. now left.
    + destruct (static_loadModel_failed env st)
        as (e' & events & -> & Hcase).
      { intros load' m' Hrt'. rewrite Hrt in Hrt'. injection Hrt' as <-.
        rewrite Hm. discriminate. }
      rewrite Hrt in Hcase. destruct Hcase as [He ->].
      rewrite Hm in He. injection He as <-. cbn.
      repeat split. eexists; split; [reflexivity |].
      repeat split; cbn; auto.
      intros x [<- | []]. now left.
  - destruct (static_loadModel_failed env st) as (e' & events & -> & Hcase).
    { intros load' m' Hrt'. rewrite Hrt in Hrt'. discriminate. }
    rewrite Hrt in Hcase. destruct Hcase as [-> ->]. cbn.
    repeat split.
    + exists []. rewrite app_nil_r. repeat split; cbn; auto.
      apply incl_nil_l.
    + eexists; split; [reflexivity |]. now destruct (tf env).
Qed.

(** X8.  The two loaders agree where the single path works: when
    ['./model.json'] probes successfully and loads, the multi-path
    [loadModel], whose list begins with that location, returns the same
    result as the single-path one and leaves the same model in the slot
    and the same DOM properties, after one probe and one load. *)
Theorem loaders_agree_on_first_location :
  forall (env : Env) (load : string -> Result ModelHandle)
         (m : ModelHandle) (st : State),
    runtime_loader env = Some load ->
    probe_ok env "./model.json" = true ->
    load "./model.json" = Ok m ->
    fst (loadModel env st) = fst (StaticApp.loadModel env st)
    /\ model (snd (loadModel env st))
       = model (snd (StaticApp.loadModel env st))
    /\ loader_style_display (snd (loadModel env st))
       = loader_style_display (snd (StaticApp.loadModel env st))
    /\ output_textContent (snd (loadModel env st))
       = output_textContent (snd (StaticApp.loadModel env st))
    /\ trace (snd (loadModel env st))
       = (trace st ++ [EFetch "./model.json"; ELoad "./model.json";
                       EModelWrite m])%list.
Proof.
  intros env load m st Hrt Hok Hm.
  destruct (runtime_loader_Some env load Hrt) as (t & Htf & Hload).
  assert (Hc : usable env load "./model.json" = Some m)
    by (apply usable_Some; auto).
  rewrite (static_loadModel_loaded env load m st Hrt Hm).
  unfold loadModel, loadModelFrom, MODEL_CANDIDATES.
  match goal with
  | |- context [loadModel_with env ?fp (_ :: ?post) st] =>
    pose proof (loadModel_with_loaded env t load Htf Hload fp [] post
                  "./model.json" m st
                  (fun c' (H : In c' []) => match H with end) Hc) as Hrun
  end.
  cbn [app] in Hrun. rewrite Hrun. cbn. auto.
Qed.

(** ** Prediction *)

Ltac run_page :=
  cbv beta iota zeta
    delta [predictImage tf_tidy logits_data Math_max_spread dispose_if_present
           logits_dispose logits_cleanup pbind pret pthrow ptry_catch attempt
           psettle read_model runtime_emit lift showPreview
           set_imgPreview_hidden imgPreview_clear imgPreview_appendChild
           set_reading set_decoding reader_readAsDataURL img_attach_handlers
           img_onload img_onload_with img_onerror reader_onload reader_onerror
           fileInput_change StaticApp.img_onload StaticApp.console_error
           error console_write modify set_loader_style_display
           set_output_textContent
           script imgPreview_hidden imgPreview_children reading decoding
           runtime_trace model loader_style_display output_textContent console
           trace detached fst snd].

Lemma predictImage_tidy_throws b img p m e :
  model (script p) = Some m ->
  tf_tidy_predict b m img = Throw e ->
  predictImage b img p
  = (Throw e,
     mkPage (script p) (imgPreview_hidden p) (imgPreview_children p)
       (reading p) (decoding p) (runtime_trace p ++ [ETidy m img])).
Proof.
  intros Hm Ht. destruct p as [[mo l o c t d] h ch rd dc rt].
  cbn in Hm. subst mo. run_page. rewrite Ht. reflexivity.
Qed.

Lemma predictImage_no_logits b img p m out :
  model (script p) = Some m ->
  tf_tidy_predict b m img = Ok out ->
  select_logits out = None ->
  predictImage b img p
  = (Throw (mkThrown "TypeError"
              "Cannot read properties of undefined (reading 'data')"),
     mkPage (script p) (imgPreview_hidden p) (imgPreview_children p)
       (reading p) (decoding p) (runtime_trace p ++ [ETidy m img])).
Proof.
  intros Hm Ht Hs. destruct p as [[mo l o c t d] h ch rd dc rt].
  cbn in Hm. subst mo. run_page. rewrite Ht. cbv beta iota. rewrite Hs.
  reflexivity.
Qed.

Lemma predictImage_with_logits b img p m out t :
  model (script p) = Some m ->
  tf_tidy_predict b m img = Ok out ->
  select_logits out = Some t ->
  predictImage b img p
  = (match tensor_data t with
     | Throw e => Throw e
     | Ok data =>
       match argument_limit b with
       | Some limit =>
         if Nat.ltb limit (List.length data)
         then Throw (mkThrown "RangeError" "Maximum call stack size exceeded")
         else match tensor_dispose t with
              | Some (Throw e) => Throw e
              | _ => Ok (PrimFloat.mul (Math_max data) 100)
              end
       | None =>
         match tensor_dispose t with
         | Some (Throw e) => Throw e
         | _ => Ok (PrimFloat.mul (Math_max data) 100)
         end
       end
     end,
     mkPage (script p) (imgPreview_hidden p) (imgPreview_children p)
       (reading p) (decoding p)
       (runtime_trace p ++
        predict_events m img t
          match tensor_dispose t with
          | None => 0
          | Some (Ok _) => 1
          | Some (Throw _) =>
            match tensor_data t with
            | Throw _ => 1
            | Ok data =>
              match argument_limit b with
              | Some limit =>
                if Nat.ltb limit (List.length data) then 1 else 2
              | None => 2
              end
            end
          end)).
Proof.
  intros Hm Ht Hs. destruct p as [[mo l o c tr d] h ch rd dc rt].
  cbn in Hm. subst mo. unfold predict_events. run_page. rewrite Ht.
  cbv beta iota. rewrite Hs. cbv beta iota.
  destruct (tensor_data t) as [data | e];
    [destruct (argument_limit b) as [limit |];
     [destruct (Nat.ltb limit (List.length data)) |] |];
    destruct (tensor_dispose t) as [[[] | e'] |];
    cbn [repeat]; rewrite <- ?app_assoc; reflexivity.
Qed.

Lemma disposals_predict_events m img t n id :
  disposals id (predict_events m img t n)
  = if Nat.eqb id (tensor_id t) then n else 0.
Proof.
  unfold disposals, predict_events. cbn [filter].
  induction n as [| n IH]; cbn [repeat filter].
  - now destruct (Nat.eqb id (tensor_id t)).
  - destruct (Nat.eqb id (tensor_id t)) eqn:E; cbn [List.length];
      rewrite IH; reflexivity.
Qed.

(** X9.  Tensor hygiene of [predictImage].  When [tf.tidy] hands back a
    tensor whose [dispose] returns normally, [predictImage] disposes of it
    exactly once on every path: when it returns the confidence, when
    reading the values throws, and when spreading them exceeds the
    engine's limit.  It disposes of nothing else, reads the values once,
    and leaves the script's state and the rest of the page untouched. *)
Theorem predictImage_disposes_once :
  forall (b : Browser) (img : Img) (p : Page) (m : ModelHandle)
         (out : Output) (t : Tensor),
    model (script p) = Some m ->
    tf_tidy_predict b m img = Ok out ->
    select_logits out = Some t ->
    tensor_dispose t = Some (Ok tt) ->
    snd (predictImage b img p)
    = mkPage (script p) (imgPreview_hidden p) (imgPreview_children p)
        (reading p) (decoding p)
        (runtime_trace p ++
         [ETidy m img; EData (tensor_id t); EDispose (tensor_id t)])
    /\ disposals (tensor_id t)
         [ETidy m img; EData (tensor_id t); EDispose (tensor_id t)] = 1
    /\ forall id, id <> tensor_id t ->
         disposals id
           [ETidy m img; EData (tensor_id t); EDispose (tensor_id t)] = 0.
Proof.
  intros b img p m out t Hm Ht Hs Hd.
  rewrite (predictImage_with_logits b img p m out t Hm Ht Hs), Hd.
  cbn [snd]. split; [reflexivity |].
  change [ETidy m img; EData (tensor_id t); EDispose (tensor_id t)]
    with (predict_events m img t 1).
  split.
  - rewrite disposals_predict_events. now rewrite Nat.eqb_refl.
  - intros id Hid. rewrite disposals_predict_events.
    apply Nat.eqb_neq in Hid. now rewrite Hid.
Qed.

(** X10.  When the values are read and the cleanup itself fails, that is,
    [dispose] throws after a successful read, [predictImage] throws the
    error of [dispose] instead of returning the confidence, and [dispose]
    has been called twice: once by the [try] block and once more by the
    handler, whose own failure is swallowed. *)
Theorem predictImage_dispose_throws :
  forall (b : Browser) (img : Img) (p : Page) (m : ModelHandle)
         (out : Output) (t : Tensor) (data : list float) (e : Thrown),
    model (script p) = Some m ->
    tf_tidy_predict b m img = Ok out ->
    select_logits out = Some t ->
    tensor_data t = Ok data ->
    match argument_limit b with
    | Some limit => List.length data <= limit
    | None => True
    end ->
    tensor_dispose t = Some (Throw e) ->
    fst (predictImage b img p) = Throw e
    /\ runtime_trace (snd (predictImage b img p))
       = (runtime_trace p ++
          [ETidy m img; EData (tensor_id t); EDispose (tensor_id t);
           EDispose (tensor_id t)])%list.
Proof.
  intros b img p m out t data e Hm Ht Hs Hdata Hlimit Hd.
  rewrite (predictImage_with_logits b img p m out t Hm Ht Hs), Hdata, Hd.
  destruct (argument_limit b) as [limit |]; [| split; reflexivity].
  apply Nat.ltb_ge in Hlimit. rewrite Hlimit. split; reflexivity.
Qed.

(** X11.  A failure before the confidence is computed reaches the caller
    as it was thrown.  With a model loaded: an exception of [tf.tidy] is
    rethrown and nothing is disposed of; an empty array from
    [model.predict] makes the read of [data] throw a [TypeError] and
    nothing is disposed of; an exception of [data()] is rethrown whatever
    [dispose] then does, even when [dispose] throws too, after a single
    call of [dispose] if the tensor has one. *)
Theorem predictImage_failure_rethrown :
  forall (b : Browser) (img : Img) (p : Page) (m : ModelHandle),
    model (script p) = Some m ->
    match tf_tidy_predict b m img with
    | Throw e =>
      fst (predictImage b img p) = Throw e
      /\ runtime_trace (snd (predictImage b img p))
         = (runtime_trace p ++ [ETidy m img])%list
    | Ok out =>
      match select_logits out with
      | None =>
        (exists message,
            fst (predictImage b img p)
            = Throw (mkThrown "TypeError" message))
        /\ runtime_trace (snd (predictImage b img p))
           = (runtime_trace p ++ [ETidy m img])%list
      | Some t =>
        match tensor_data t with
        | Throw e =>
          fst (predictImage b img p) = Throw e
          /\ runtime_trace (snd (predictImage b img p))
             = (runtime_trace p ++
                predict_events m img t
                  match tensor_dispose t with
                  | Some _ => 1
                  | None => 0
                  end)%list
        | Ok _ => True
        end
      end
    end.
Proof.
  intros b img p m Hm.
  destruct (tf_tidy_predict b m img) as [out | e] eqn:Ht.
  - destruct (select_logits out) as [t |] eqn:Hs.
    + destruct (tensor_data t) as [data | e] eqn:Hdata; [exact I |].
      rewrite (predictImage_with_logits b img p m out t Hm Ht Hs), Hdata.
      split; [reflexivity |]. cbn [snd runtime_trace].
      now destruct (tensor_dispose t) as [[[] | e'] |].
    + rewrite (predictImage_no_logits b img p m out Hm Ht Hs).
      split; [eexists |]; reflexivity.
  - rewrite (predictImage_tidy_throws b img p m e Hm Ht).
    split; reflexivity.
Qed.

Lemma Math_max_fold_in (values : list float) (start : float) :
  In (fold_left
        (fun highest number =>
           if match classify number, classify highest with
              | FloatClass.PZero, FloatClass.NZero => true
              | _, _ => false
              end
           then number
           else if PrimFloat.ltb highest number then number else highest)
        values start)
     (start :: values).
Proof.
  revert start. induction values as [| x values IH]; intros start.
  - now left.
  - cbn [fold_left].
    match goal with
    | |- In (fold_left _ _ ?s) _ =>
      assert (Hs : s = x \/ s = start);
        [| specialize (IH s); destruct Hs as [Hs | Hs]; rewrite Hs in *]
    end.
    + destruct (classify x), (classify start); auto;
        destruct (PrimFloat.ltb start x); auto.
    + destruct IH as [<- | IH]; [right; now left | right; now right].
    + destruct IH as [<- | IH]; [now left | right; now right].
Qed.

(** X12.  The confidence [predictImage] returns.  When the model is
    loaded, the tensor's values are read, they fit the engine's argument
    limit and [dispose] does not throw, the call returns
    [Math.max(...data) * 100]: [-Infinity] when the tensor holds no value,
    [NaN] when one of its values is [NaN], and otherwise 100 times one of
    the values (or times [-Infinity]). *)
Theorem predictImage_confidence :
  forall (b : Browser) (img : Img) (p : Page) (m : ModelHandle)
         (out : Output) (t : Tensor) (data : list float),
    model (script p) = Some m ->
    tf_tidy_predict b m img = Ok out ->
    select_logits out = Some t ->
    tensor_data t = Ok data ->
    match argument_limit b with
    | Some limit => List.length data <= limit
    | None => True
    end ->
    (forall e, tensor_dispose t <> Some (Throw e)) ->
    fst (predictImage b img p) = Ok (PrimFloat.mul (Math_max data) 100)
    /\ (data = [] -> fst (predictImage b img p) = Ok neg_infinity)
    /\ (existsb is_nan data = true -> fst (predictImage b img p) = Ok nan)
    /\ (existsb is_nan data = false ->
        exists x, In x (neg_infinity :: data)
                  /\ fst (predictImage b img p) = Ok (PrimFloat.mul x 100)).
Proof.
  intros b img p m out t data Hm Ht Hs Hdata Hlimit Hd.
  assert (Hres : fst (predictImage b img p)
                 = Ok (PrimFloat.mul (Math_max data) 100)).
  { rewrite (predictImage_with_logits b img p m out t Hm Ht Hs), Hdata.
    cbn [fst].
    assert (Hd' : match tensor_dispose t with
                  | Some (Throw e) => Throw e
                  | _ => Ok (PrimFloat.mul (Math_max data) 100)
                  end = Ok (PrimFloat.mul (Math_max data) 100)).
    { destruct (tensor_dispose t) as [[[] | e] |]; try reflexivity.
      now destruct (Hd e). }
    destruct (argument_limit b) as [limit |]; [| exact Hd'].
    apply Nat.ltb_ge in Hlimit. rewrite Hlimit. exact Hd'. }
  rewrite Hres. split; [reflexivity |]. split; [| split].
  - intros ->. reflexivity.
  - intros Hnan. unfold Math_max. rewrite Hnan. reflexivity.
  - intros Hnan. exists (Math_max data). split; [| reflexivity].
    unfold Math_max. rewrite Hnan. apply Math_max_fold_in.
Qed.

(** ** The event handlers *)

(** [predictImage] touches nothing but the runtime trace. *)
Lemma predictImage_frame b img p :
  exists events,
    snd (predictImage b img p)
    = mkPage (script p) (imgPreview_hidden p) (imgPreview_children p)
        (reading p) (decoding p) (runtime_trace p ++ events)
    /\ match model (script p) with
       | None => events = []
                 /\ fst (predictImage b img p)
                    = Throw (mkThrown "Error" "Model not loaded")
       | Some m => exists more, events = ETidy m img :: more
       end.
Proof.
  destruct (model (script p)) as [m |] eqn:Hm.
  - destruct (tf_tidy_predict b m img) as [out | e] eqn:Ht.
    + destruct (select_logits out) as [t |] eqn:Hs.
      * rewrite (predictImage_with_logits b img p m out t Hm Ht Hs).
        eexists; split; [reflexivity |]. unfold predict_events. eauto.
      * rewrite (predictImage_no_logits b img p m out Hm Ht Hs).
        eexists; split; [reflexivity |]. eauto.
    + rewrite (predictImage_tidy_throws b img p m e Hm Ht).
      eexists; split; [reflexivity |]. eauto.
  - exists []. destruct p as [[mo l o c t d] h ch rd dc rt].
    cbn in Hm. subst mo. run_page. rewrite app_nil_r. auto.
Qed.

Ltac run_handler :=
  cbv beta iota zeta
    delta [pbind pret pthrow ptry_catch psettle lift showPreview
           set_imgPreview_hidden imgPreview_clear imgPreview_appendChild
           set_reading set_decoding reader_readAsDataURL img_attach_handlers
           img_onload img_onload_with img_onerror reader_onload reader_onerror
           fileInput_change StaticApp.img_onload StaticApp.console_error
           read_model error console_write modify set_loader_style_display
           set_output_textContent
           script imgPreview_hidden imgPreview_children reading decoding
           runtime_trace model loader_style_display output_textContent console
           trace detached fst snd].


(** X13.  The [onload] handler of the preview image, in both scripts
    ([tagged]: the multi-path script, which reports through [error]; not
    tagged: the single-path one, which calls [console.error]).  It never
    throws and always hides the loader.  When [predictImage] returns a
    confidence the output shows it with two decimals and nothing is
    logged; when [predictImage] throws, the output shows the error text
    and the error is logged once.  The slot, the preview and the pending
    readers and images are left alone, and the runtime is used by
    [predictImage] only. *)
Theorem img_onload_settles :
  forall (b : Browser) (tagged : bool) (img : Img) (p : Page),
    let handler := if tagged then img_onload b else StaticApp.img_onload b in
    fst (handler img p) = Ok tt
    /\ loader_style_display (script (snd (handler img p))) = "none"
    /\ model (script (snd (handler img p))) = model (script p)
    /\ trace (script (snd (handler img p))) = trace (script p)
    /\ imgPreview_hidden (snd (handler img p)) = imgPreview_hidden p
    /\ imgPreview_children (snd (handler img p)) = imgPreview_children p
    /\ reading (snd (handler img p)) = reading p
    /\ decoding (snd (handler img p)) = decoding p
    /\ runtime_trace (snd (handler img p))
       = runtime_trace (snd (predictImage b img p))
    /\ match fst (predictImage b img p) with
       | Ok conf =>
         output_textContent (script (snd (handler img p)))
         = "Confidence: " ++ Number_toFixed b conf 2 ++ "% Replica"
         /\ console (script (snd (handler img p))) = console (script p)
       | Throw err =>
         output_textContent (script (snd (handler img p)))
         = "Error processing image."
         /\ console (script (snd (handler img p)))
            = (console (script p) ++
               [(LevelError,
                 (if tagged then [AStr "[app.js]"] else []) ++
                 [AStr "Prediction error:"; AThrown err])])%list
       end.
Proof.
  intros b tagged img p handler. subst handler.
  destruct (predictImage_frame b img p) as (events & Hsnd & _).
  destruct p as [[mo l o c t d] h ch rd dc rt].
  destruct tagged; run_handler;
    destruct (predictImage b img _) as [[conf | err] p'];
    cbn [snd] in Hsnd; subst p'; cbn; repeat split.
Qed.

(** X14.  The [change] handler of the file input starts a read only when a
    file was selected and a model is loaded, and then it reads the first
    selected file only.  Without a file (a [null] or empty list) it shows
    ['No file selected.']; with a file and no model it shows
    ['Model not loaded yet...']; in both cases the loader is not shown and
    nothing is left pending.  It never throws and never touches the slot,
    the preview or the runtime. *)
Theorem fileInput_change_guards :
  forall (files : option (list File)) (p : Page),
    let picked := match files with
                  | Some (f :: _) => Some f
                  | _ => None
                  end in
    fst (fileInput_change files p) = Ok tt
    /\ model (script (snd (fileInput_change files p))) = model (script p)
    /\ decoding (snd (fileInput_change files p)) = decoding p
    /\ imgPreview_children (snd (fileInput_change files p))
       = imgPreview_children p
    /\ runtime_trace (snd (fileInput_change files p)) = runtime_trace p
    /\ trace (script (snd (fileInput_change files p))) = trace (script p)
    /\ match picked, model (script p) with
       | Some f, Some _ =>
         reading (snd (fileInput_change files p)) = (reading p ++ [f])%list
         /\ loader_style_display (script (snd (fileInput_change files p)))
            = "block"
         /\ output_textContent (script (snd (fileInput_change files p)))
            = "Processing image..."
       | Some _, None =>
         reading (snd (fileInput_change files p)) = reading p
         /\ loader_style_display (script (snd (fileInput_change files p)))
            = loader_style_display (script p)
         /\ output_textContent (script (snd (fileInput_change files p)))
            = "Model not loaded yet..."
       | None, _ =>
         reading (snd (fileInput_change files p)) = reading p
         /\ loader_style_display (script (snd (fileInput_change files p)))
            = loader_style_display (script p)
         /\ output_textContent (script (snd (fileInput_change files p)))
            = "No file selected."
       end.
Proof.
  intros files p picked. subst picked.
  destruct p as [[mo l o c t d] h ch rd dc rt].
  destruct files as [[| f fs] |]; cbn [hd_error]; run_handler;
    cbn [hd_error]; try (repeat split; fail).
  destruct mo; cbn; repeat split.
Qed.

(** ** The event loop *)







(** ** The further properties at the sample host *)

Lemma loadModel_later_candidates_unused_witness :
  runtime_loader sample_env = Some sample_load
  /\ (exists c m, In c ["./model.json"; "model.json"]
                  /\ usable sample_env sample_load c = Some m)
  /\ loadModelFrom sample_env
       (["./model.json"; "model.json"] ++ ["./models/model.json"])
       initial_state
     = loadModelFrom sample_env ["./model.json"; "model.json"] initial_state.
Proof.
  assert (H : exists c m, In c ["./model.json"; "model.json"]
                          /\ usable sample_env sample_load c = Some m).
  { exists "model.json", (LayersModel "model.json").
    split; [right; left; reflexivity | reflexivity]. }
  split; [reflexivity |]. split; [exact H |].
  apply (loadModel_later_candidates_unused sample_env sample_load
           ["./model.json"; "model.json"] ["./models/model.json"]
           initial_state); [reflexivity | exact H].
Defined.

Lemma loadModel_repeated_candidate_witness :
  In "/model.json" ["/model.json"; "model.json"]
  /\ fst (loadModelFrom sample_env
            (["/model.json"; "model.json"] ++
             "/model.json" :: ["./models/model.json"]) initial_state)
     = fst (loadModelFrom sample_env
              (["/model.json"; "model.json"] ++ ["./models/model.json"])
              initial_state)
  /\ model (snd (loadModelFrom sample_env
                   (["/model.json"; "model.json"] ++
                    "/model.json" :: ["./models/model.json"]) initial_state))
     = model (snd (loadModelFrom sample_env
                     (["/model.json"; "model.json"] ++
                      ["./models/model.json"]) initial_state))
  /\ loader_style_display
       (snd (loadModelFrom sample_env
               (["/model.json"; "model.json"] ++
                "/model.json" :: ["./models/model.json"]) initial_state))
     = loader_style_display
         (snd (loadModelFrom sample_env
                 (["/model.json"; "model.json"] ++ ["./models/model.json"])
                 initial_state))
  /\ output_textContent
       (snd (loadModelFrom sample_env
               (["/model.json"; "model.json"] ++
                "/model.json" :: ["./models/model.json"]) initial_state))
     = output_textContent
         (snd (loadModelFrom sample_env
                 (["/model.json"; "model.json"] ++ ["./models/model.json"])
                 initial_state)).
Proof.
  split; [left; reflexivity |].
  apply (loadModel_repeated_candidate sample_env
           ["/model.json"; "model.json"] ["./models/model.json"]
           "/model.json" initial_state).
  left; reflexivity.
Defined.

Lemma loaders_agree_on_first_location_witness :
  runtime_loader sample_env_plain
  = Some (fun url => Ok (LayersModel url))
  /\ probe_ok sample_env_plain "./model.json" = true
  /\ (fun url => Ok (LayersModel url)) "./model.json"
     = Ok (LayersModel "./model.json")
  /\ fst (loadModel sample_env_plain initial_state)
     = fst (StaticApp.loadModel sample_env_plain initial_state)
  /\ model (snd (loadModel sample_env_plain initial_state))
     = model (snd (StaticApp.loadModel sample_env_plain initial_state))
  /\ loader_style_display (snd (loadModel sample_env_plain initial_state))
     = loader_style_display
         (snd (StaticApp.loadModel sample_env_plain initial_state))
  /\ output_textContent (snd (loadModel sample_env_plain initial_state))
     = output_textContent
         (snd (StaticApp.loadModel sample_env_plain initial_state))
  /\ trace (snd (loadModel sample_env_plain initial_state))
     = (trace initial_state ++
        [EFetch "./model.json"; ELoad "./model.json";
         EModelWrite (LayersModel "./model.json")])%list.
Proof.
  split; [reflexivity |]. split; [reflexivity |]. split; [reflexivity |].
  apply (loaders_agree_on_first_location sample_env_plain
           (fun url => Ok (LayersModel url)) (LayersModel "./model.json")
           initial_state); reflexivity.
Defined.

Lemma sample_loaded_page_model :
  model (script sample_loaded_page) = Some (LayersModel "model.json").
Proof. vm_compute. reflexivity. Defined.

Lemma predictImage_disposes_once_witness :
  model (script sample_loaded_page) = Some (LayersModel "model.json")
  /\ tf_tidy_predict sample_browser (LayersModel "model.json")
       (sample_img "data:shot")
     = Ok (OutArray [sample_logits])
  /\ select_logits (OutArray [sample_logits]) = Some sample_logits
  /\ tensor_dispose sample_logits = Some (Ok tt)
  /\ snd (predictImage sample_browser (sample_img "data:shot")
            sample_loaded_page)
     = mkPage (script sample_loaded_page)
         (imgPreview_hidden sample_loaded_page)
         (imgPreview_children sample_loaded_page)
         (reading sample_loaded_page) (decoding sample_loaded_page)
         (runtime_trace sample_loaded_page ++
          [ETidy (LayersModel "model.json") (sample_img "data:shot");
           EData (tensor_id sample_logits);
           EDispose (tensor_id sample_logits)])
  /\ disposals (tensor_id sample_logits)
       [ETidy (LayersModel "model.json") (sample_img "data:shot");
        EData (tensor_id sample_logits);
        EDispose (tensor_id sample_logits)] = 1
  /\ forall id, id <> tensor_id sample_logits ->
       disposals id
         [ETidy (LayersModel "model.json") (sample_img "data:shot");
          EData (tensor_id sample_logits);
          EDispose (tensor_id sample_logits)] = 0.
Proof.
  split; [exact sample_loaded_page_model |].
  split; [reflexivity |]. split; [reflexivity |]. split; [reflexivity |].
  apply (predictImage_disposes_once sample_browser (sample_img "data:shot")
           sample_loaded_page (LayersModel "model.json")
           (OutArray [sample_logits]) sample_logits);
    [exact sample_loaded_page_model | reflexivity | reflexivity | reflexivity].
Defined.

Lemma predictImage_dispose_throws_witness :
  model (script sample_loaded_page) = Some (LayersModel "model.json")
  /\ tf_tidy_predict sample_browser (LayersModel "model.json")
       (sample_img "data:sticky")
     = Ok (OutTensor sample_sticky_logits)
  /\ select_logits (OutTensor sample_sticky_logits)
     = Some sample_sticky_logits
  /\ tensor_data sample_sticky_logits = Ok [0.75%float]
  /\ match argument_limit sample_browser with
     | Some limit => List.length [0.75%float] <= limit
     | None => True
     end
  /\ tensor_dispose sample_sticky_logits
     = Some (Throw (mkThrown "Error" "busy"))
  /\ fst (predictImage sample_browser (sample_img "data:sticky")
            sample_loaded_page)
     = Throw (mkThrown "Error" "busy")
  /\ runtime_trace (snd (predictImage sample_browser
                           (sample_img "data:sticky") sample_loaded_page))
     = (runtime_trace sample_loaded_page ++
        [ETidy (LayersModel "model.json") (sample_img "data:sticky");
         EData (tensor_id sample_sticky_logits);
         EDispose (tensor_id sample_sticky_logits);
         EDispose (tensor_id sample_sticky_logits)])%list.
Proof.
  split; [exact sample_loaded_page_model |].
  split; [reflexivity |]. split; [reflexivity |]. split; [reflexivity |].
  split; [exact I |]. split; [reflexivity |].
  apply (predictImage_dispose_throws sample_browser
           (sample_img "data:sticky") sample_loaded_page
           (LayersModel "model.json") (OutTensor sample_sticky_logits)
           sample_sticky_logits [0.75%float] (mkThrown "Error" "busy"));
    [exact sample_loaded_page_model | reflexivity | reflexivity | reflexivity
     | exact I | reflexivity].
Defined.

Lemma predictImage_failure_rethrown_witness :
  model (script sample_loaded_page) = Some (LayersModel "model.json")
  /\ match tf_tidy_predict sample_browser (LayersModel "model.json")
             (sample_img "data:stale") with
     | Throw e =>
       fst (predictImage sample_browser (sample_img "data:stale")
              sample_loaded_page) = Throw e
       /\ runtime_trace (snd (predictImage sample_browser
                                (sample_img "data:stale")
                                sample_loaded_page))
          = (runtime_trace sample_loaded_page ++
             [ETidy (LayersModel "model.json") (sample_img "data:stale")])%list
     | Ok out =>
       match select_logits out with
       | None =>
         (exists message,
             fst (predictImage sample_browser (sample_img "data:stale")
                    sample_loaded_page)
             = Throw (mkThrown "TypeError" message))
         /\ runtime_trace (snd (predictImage sample_browser
                                  (sample_img "data:stale")
                                  sample_loaded_page))
            = (runtime_trace sample_loaded_page ++
               [ETidy (LayersModel "model.json")
                  (sample_img "data:stale")])%list
       | Some t =>
         match tensor_data t with
         | Throw e =>
           fst (predictImage sample_browser (sample_img "data:stale")
                  sample_loaded_page) = Throw e
           /\ runtime_trace (snd (predictImage sample_browser
                                    (sample_img "data:stale")
                                    sample_loaded_page))
              = (runtime_trace sample_loaded_page ++
                 predict_events (LayersModel "model.json")
                   (sample_img "data:stale") t
                   match tensor_dispose t with
                   | Some _ => 1
                   | None => 0
                   end)%list
         | Ok _ => True
         end
       end
     end.
Proof.
  split; [exact sample_loaded_page_model |].
  apply (predictImage_failure_rethrown sample_browser
           (sample_img "data:stale") sample_loaded_page
           (LayersModel "model.json")).
  exact sample_loaded_page_model.
Defined.

Lemma sample_logits_dispose_returns :
  forall e, tensor_dispose sample_logits <> Some (Throw e).
Proof. intros e. discriminate. Defined.

Lemma predictImage_confidence_witness :
  model (script sample_loaded_page) = Some (LayersModel "model.json")
  /\ tf_tidy_predict sample_browser (LayersModel "model.json")
       (sample_img "data:shot")
     = Ok (OutArray [sample_logits])
  /\ select_logits (OutArray [sample_logits]) = Some sample_logits
  /\ tensor_data sample_logits = Ok [0.25%float; 0.5%float; 0.125%float]
  /\ match argument_limit sample_browser with
     | Some limit =>
       List.length [0.25%float; 0.5%float; 0.125%float] <= limit
     | None => True
     end
  /\ (forall e, tensor_dispose sample_logits <> Some (Throw e))
  /\ fst (predictImage sample_browser (sample_img "data:shot")
            sample_loaded_page)
     = Ok (PrimFloat.mul
             (Math_max [0.25%float; 0.5%float; 0.125%float]) 100)
  /\ ([0.25%float; 0.5%float; 0.125%float] = [] ->
      fst (predictImage sample_browser (sample_img "data:shot")
             sample_loaded_page) = Ok neg_infinity)
  /\ (existsb is_nan [0.25%float; 0.5%float; 0.125%float] = true ->
      fst (predictImage sample_browser (sample_img "data:shot")
             sample_loaded_page) = Ok nan)
  /\ (existsb is_nan [0.25%float; 0.5%float; 0.125%float] = false ->
      exists x, In x (neg_infinity
                        :: [0.25%float; 0.5%float; 0.125%float])
                /\ fst (predictImage sample_browser (sample_img "data:shot")
                          sample_loaded_page)
                   = Ok (PrimFloat.mul x 100)).
Proof.
  split; [exact sample_loaded_page_model |].
  split; [reflexivity |]. split; [reflexivity |]. split; [reflexivity |].
  split; [exact I |]. split; [exact sample_logits_dispose_returns |].
  apply (predictImage_confidence sample_browser (sample_img "data:shot")
           sample_loaded_page (LayersModel "model.json")
           (OutArray [sample_logits]) sample_logits
           [0.25%float; 0.5%float; 0.125%float]);
    [exact sample_loaded_page_model | reflexivity | reflexivity | reflexivity
     | exact I | exact sample_logits_dispose_returns].
Defined.



